(** * I2Ctest.h: the I2C transaction and test layouts

    The repository is one header, [I2Ctest/I2Ctest.h].  It holds two
    preprocessor definitions (the include guard and [I2C_limit_brief]),
    three typedefs and three struct definitions, and no function.

    The development follows the order in which a compiler reads the header:

    - the header itself, line by line, as data ([I2Ctest_h]);
    - the preprocessor: conditional inclusion, [#define], macro replacement;
    - the translation of declarations into types, under the name-lookup
      rules of C99 and of C++;
    - the values the resulting types hold, with the three structs as records.
*)

From Stdlib Require Import ZArith List String Bool Lia.
Import ListNotations.
Open Scope string_scope.
Open Scope Z_scope.

(* ================================================================= *)
(** ** Results *)

Inductive error : Type :=
| MacroRedefined (name : string)
| UnbalancedConditional
| UnsupportedReplacement (name : string)
| UnknownTypeName (name : string)
| Redefinition (name : string)
| BadArraySize (name : string)
| FlexibleArrayMember (name : string)
| DuplicateMember (name : string)
| ObjectTooLarge (name : string).

Inductive result (A : Type) : Type :=
| OK (a : A)
| Error (e : error).

Arguments OK {A} a.
Arguments Error {A} e.

Definition bind {A B : Type} (r : result A) (k : A -> result B) : result B :=
  match r with
  | OK a => k a
  | Error e => Error e
  end.

Notation "'do' x <- r ; k" := (bind r (fun x => k))
  (at level 10, x name, r at level 100, k at level 200).

Fixpoint lookup {A : Type} (k : string) (l : list (string * A)) : option A :=
  match l with
  | [] => None
  | (k', a) :: l' => if String.eqb k k' then Some a else lookup k l'
  end.

Fixpoint remove_key {A : Type} (k : string) (l : list (string * A))
  : list (string * A) :=
  match l with
  | [] => []
  | (k', a) :: l' =>
      if String.eqb k k' then remove_key k l' else (k', a) :: remove_key k l'
  end.

Definition defined {A : Type} (k : string) (l : list (string * A)) : bool :=
  match lookup k l with
  | Some _ => true
  | None => false
  end.

(* ================================================================= *)
(** ** Integer types

    [unsigned char] has [CHAR_BIT] bits.  The header needs [int16_t], which
    exists only where a 16-bit object without padding does; the targets of
    this library (AVR and ARM boards) address memory by octets, and the
    model fixes [CHAR_BIT] accordingly, as CompCert does. *)

Definition CHAR_BIT : Z := 8.

(** The largest size an object may have, in bytes.  It is a constant of
    the target too; the model takes the one of the 8-bit AVR boards, the
    smallest among the targets: 32767, the largest difference of two
    pointers of 16 bits.  A 32-bit board allows more. *)
Definition MAX_OBJECT_SIZE : Z := 32767.

Inductive signedness : Type := Signed | Unsigned.

Definition signedness_eqb (a b : signedness) : bool :=
  match a, b with
  | Signed, Signed | Unsigned, Unsigned => true
  | _, _ => false
  end.

Definition min_value (sg : signedness) (bits : Z) : Z :=
  match sg with
  | Unsigned => 0
  | Signed => - 2 ^ (bits - 1)
  end.

Definition max_value (sg : signedness) (bits : Z) : Z :=
  match sg with
  | Unsigned => 2 ^ bits - 1
  | Signed => 2 ^ (bits - 1) - 1
  end.

Definition in_range (sg : signedness) (bits : Z) (z : Z) : bool :=
  (min_value sg bits <=? z) && (z <=? max_value sg bits).

(** The value an object of [bits] bits holds when its bits are those of
    [raw]: an unsigned type reads them as they are, a signed one
    (two's complement, as [int16_t] is required to be) takes the top bit
    as the sign. *)
Definition decode (sg : signedness) (bits : Z) (raw : Z) : Z :=
  let r := Z.land raw (Z.ones bits) in
  match sg with
  | Unsigned => r
  | Signed => if Z.testbit r (bits - 1) then r - 2 ^ bits else r
  end.

(** The bits stored for a value: its two's complement on [bits] bits. *)
Definition encode (bits : Z) (z : Z) : Z := Z.land z (Z.ones bits).

(** The value read back from a member of the type after the bits of [z]
    were stored in it.  For a value of the type this is the value itself,
    which is all that is relied on; what an out-of-range value becomes is
    left to the implementation for a signed type (C99 6.3.1.3), and an
    initialiser in braces may not hold one at all in C++. *)
Definition convert (sg : signedness) (bits : Z) (z : Z) : Z :=
  decode sg bits (encode bits z).

(* ================================================================= *)
(** ** The header as data *)

(** Preprocessing tokens that a replacement list of this header, or of a
    [-D] option, is made of. *)
Inductive pp_token : Type :=
| TokInt (n : Z)
| TokId (s : string).

(** An array bound as written: a literal or an identifier. *)
Inductive size_expr : Type :=
| SLit (n : Z)
| SIdent (s : string).

(** A type specifier as written. *)
Inductive tyname : Type :=
| TUnsignedChar
| TName (s : string)
| TStruct (tag : string).

(** What follows the declared name: nothing, [[size]] or [[]]. *)
Inductive declarator : Type :=
| DPlain
| DArray (size : size_expr)
| DFlex.

Record member : Type := Member {
  m_type : tyname;
  m_name : string;
  m_decl : declarator
}.

Inductive decl : Type :=
| Typedef (ty : tyname) (name : string) (d : declarator)
| StructDef (tag : string) (members : list member).

Inductive pp_line : Type :=
| PIfndef (name : string)
| PDefine (name : string) (body : list pp_token)
| PEndif
| PDecl (d : decl).

(** The header with the replacement list of [I2C_limit_brief] left open:
    line 18 of the file reads [#define I2C_limit_brief 16]. *)
Definition I2Ctest_h_with (limit : list pp_token) : list pp_line :=
  [ PIfndef "__I2CTEST_I2CTEST_H";
    PDefine "__I2CTEST_I2CTEST_H" [TokInt 1];
    PDecl (Typedef TUnsignedChar "I2C_byte" DPlain);
    PDecl (Typedef (TName "int16_t") "I2C_length" DPlain);
    PDefine "I2C_limit_brief" limit;
    PDecl (Typedef (TName "I2C_byte") "I2C_data_brief"
             (DArray (SIdent "I2C_limit_brief")));
    PDecl (StructDef "I2C_transaction_generic"
             [ Member (TName "I2C_byte") "addr" DPlain;
               Member (TName "I2C_length") "n_write" DPlain;
               Member (TName "I2C_length") "n_read" DPlain;
               Member (TName "I2C_byte") "write" DFlex ]);
    PDecl (StructDef "I2C_transaction_brief"
             [ Member (TName "I2C_byte") "addr" DPlain;
               Member (TName "I2C_length") "n_write" DPlain;
               Member (TName "I2C_length") "n_read" DPlain;
               Member (TName "I2C_data_brief") "write" DPlain ]);
    PDecl (StructDef "I2C_test_brief"
             [ Member (TName "I2C_transaction_brief") "tx" DPlain;
               Member (TName "I2C_data_brief") "expect" DPlain ]);
    PEndif ].

Definition I2Ctest_h : list pp_line := I2Ctest_h_with [TokInt 16].

(* ================================================================= *)
(** ** The preprocessor *)

Definition macro_table : Type := list (string * list pp_token).

Definition pp_token_eqb (a b : pp_token) : bool :=
  match a, b with
  | TokInt n, TokInt m => n =? m
  | TokId s, TokId t => String.eqb s t
  | _, _ => false
  end.

Fixpoint tokens_eqb (a b : list pp_token) : bool :=
  match a, b with
  | [], [] => true
  | x :: a', y :: b' => pp_token_eqb x y && tokens_eqb a' b'
  | _, _ => false
  end.

(** [#define] of a name that is a macro already is allowed only with the
    same replacement list (C99 6.10.3p2).  A compiler either rejects the
    other case ([Strict]) or warns and lets the new definition replace the
    old one ([Lenient], what gcc and clang do by default). *)
Inductive redefine_mode : Type := Strict | Lenient.

Definition define (mode : redefine_mode) (name : string)
  (body : list pp_token) (tbl : macro_table) : result macro_table :=
  match lookup name tbl with
  | None => OK ((name, body) :: tbl)
  | Some old =>
      if tokens_eqb old body then OK tbl
      else match mode with
           | Strict => Error (MacroRedefined name)
           | Lenient => OK ((name, body) :: remove_key name tbl)
           end
  end.

(** Macro replacement of one token.  The declarations of the header are
    kept as syntax trees, so a replacement list must be a single token to
    be put back in one; the result is scanned again with the macro itself
    set aside (C99 6.10.3.4p2), which is why the table shrinks with the
    fuel. *)
Fixpoint replace (fuel : nat) (tbl : macro_table) (t : pp_token)
  : result pp_token :=
  match t with
  | TokInt _ => OK t
  | TokId s =>
      match lookup s tbl with
      | None => OK t
      | Some body =>
          match fuel, body with
          | S fuel', [t'] => replace fuel' (remove_key s tbl) t'
          | _, _ => Error (UnsupportedReplacement s)
          end
      end
  end.

Definition expand_token (tbl : macro_table) (t : pp_token) : result pp_token :=
  replace (List.length tbl) tbl t.

Definition expand_ident (tbl : macro_table) (s : string) : result string :=
  do t <- expand_token tbl (TokId s);
  match t with
  | TokId s' => OK s'
  | TokInt _ => Error (UnsupportedReplacement s)
  end.

Definition expand_size (tbl : macro_table) (e : size_expr) : result size_expr :=
  match e with
  | SLit n => OK (SLit n)
  | SIdent s =>
      do t <- expand_token tbl (TokId s);
      match t with
      | TokInt n => OK (SLit n)
      | TokId s' => OK (SIdent s')
      end
  end.

(** Keywords are identifiers to the preprocessor and are replaced like
    any other.  A declaration whose keyword is a macro is no longer the
    declaration the syntax tree stands for, and is reported as such rather
    than passed on unchanged. *)
Definition keywords_kept (tbl : macro_table) (kws : list string)
  : result unit :=
  match find (fun k => defined k tbl) kws with
  | Some k => Error (UnsupportedReplacement k)
  | None => OK tt
  end.

Definition tyname_keywords (t : tyname) : list string :=
  match t with
  | TUnsignedChar => ["unsigned"; "char"]
  | TName _ => []
  | TStruct _ => ["struct"]
  end.

Definition expand_tyname (tbl : macro_table) (t : tyname) : result tyname :=
  do _ <- keywords_kept tbl (tyname_keywords t);
  match t with
  | TUnsignedChar => OK TUnsignedChar
  | TName s => do s' <- expand_ident tbl s; OK (TName s')
  | TStruct tag => do tag' <- expand_ident tbl tag; OK (TStruct tag')
  end.

Definition expand_declarator (tbl : macro_table) (d : declarator)
  : result declarator :=
  match d with
  | DPlain => OK DPlain
  | DArray e => do e' <- expand_size tbl e; OK (DArray e')
  | DFlex => OK DFlex
  end.

Definition expand_member (tbl : macro_table) (m : member) : result member :=
  do t <- expand_tyname tbl (m_type m);
  do n <- expand_ident tbl (m_name m);
  do d <- expand_declarator tbl (m_decl m);
  OK (Member t n d).

Fixpoint mapM {A B : Type} (f : A -> result B) (l : list A) : result (list B) :=
  match l with
  | [] => OK []
  | a :: l' => do b <- f a; do bs <- mapM f l'; OK (b :: bs)
  end.

Definition expand_decl (tbl : macro_table) (d : decl) : result decl :=
  match d with
  | Typedef ty name dc =>
      do _ <- keywords_kept tbl ["typedef"];
      do ty' <- expand_tyname tbl ty;
      do name' <- expand_ident tbl name;
      do dc' <- expand_declarator tbl dc;
      OK (Typedef ty' name' dc')
  | StructDef tag ms =>
      do _ <- keywords_kept tbl ["struct"];
      do tag' <- expand_ident tbl tag;
      do ms' <- mapM (expand_member tbl) ms;
      OK (StructDef tag' ms')
  end.

(** The state of the preprocessor inside a file: the macros, the number of
    conditional groups open and being read, the number open and being
    skipped, and the declarations passed on to the compiler so far. *)
Record pp_state : Type := PPState {
  macros : macro_table;
  cond_open : nat;
  cond_skip : nat;
  emitted : list decl
}.

Definition pp_step (mode : redefine_mode) (st : pp_state) (l : pp_line)
  : result pp_state :=
  match cond_skip st with
  | S k =>
      match l with
      | PIfndef _ => OK (PPState (macros st) (cond_open st) (S (S k)) (emitted st))
      | PEndif => OK (PPState (macros st) (cond_open st) k (emitted st))
      | PDefine _ _ | PDecl _ => OK st
      end
  | O =>
      match l with
      | PIfndef name =>
          if defined name (macros st)
          then OK (PPState (macros st) (cond_open st) 1 (emitted st))
          else OK (PPState (macros st) (S (cond_open st)) 0 (emitted st))
      | PEndif =>
          match cond_open st with
          | O => Error UnbalancedConditional
          | S n => OK (PPState (macros st) n 0 (emitted st))
          end
      | PDefine name body =>
          do tbl <- define mode name body (macros st);
          OK (PPState tbl (cond_open st) 0 (emitted st))
      | PDecl d =>
          do d' <- expand_decl (macros st) d;
          OK (PPState (macros st) (cond_open st) 0 (emitted st ++ [d']))
      end
  end.

Fixpoint pp_lines (mode : redefine_mode) (st : pp_state) (ls : list pp_line)
  : result pp_state :=
  match ls with
  | [] => OK st
  | l :: ls' => do st' <- pp_step mode st l; pp_lines mode st' ls'
  end.

(** What is carried from one file of a translation unit to the next. *)
Record pp_out : Type := PPOut {
  out_macros : macro_table;
  out_decls : list decl
}.

(** [#include] of a file: its lines are read with the macros of the
    including file, and its conditionals must be closed when it ends. *)
Definition include (mode : redefine_mode) (file : list pp_line) (o : pp_out)
  : result pp_out :=
  do st <- pp_lines mode (PPState (out_macros o) 0 0 (out_decls o)) file;
  match cond_open st, cond_skip st with
  | O, O => OK (PPOut (macros st) (emitted st))
  | _, _ => Error UnbalancedConditional
  end.

Fixpoint include_all (mode : redefine_mode) (files : list (list pp_line))
  (o : pp_out) : result pp_out :=
  match files with
  | [] => OK o
  | f :: files' => do o' <- include mode f o; include_all mode files' o'
  end.

(** A translation unit that includes the given files in turn, compiled
    with the macros of the command line ([-D name=value]). *)
Definition preprocess (mode : redefine_mode) (cmdline : macro_table)
  (files : list (list pp_line)) : result pp_out :=
  include_all mode files (PPOut cmdline []).

(* ================================================================= *)
(** ** Types and their declaration *)

#[local] Set Warnings "-register-all".

Inductive ctype : Type :=
| CInt (sg : signedness) (bits : Z)
| CArray (elt : ctype) (n : Z)
| CFlex (elt : ctype)
| CStruct (tag : string) (members : list (string * ctype)).

(** Struct types are the same type when they have the same tag. *)
Fixpoint ctype_eqb (a b : ctype) : bool :=
  match a, b with
  | CInt s1 n1, CInt s2 n2 => signedness_eqb s1 s2 && (n1 =? n2)
  | CArray e1 n1, CArray e2 n2 => ctype_eqb e1 e2 && (n1 =? n2)
  | CFlex e1, CFlex e2 => ctype_eqb e1 e2
  | CStruct t1 _, CStruct t2 _ => String.eqb t1 t2
  | _, _ => false
  end.

(** The points on which the languages the header is meant for differ on
    declarations of its kind: whether the tag of a struct names its type
    without the keyword [struct] (C++ only), whether a struct may end in
    an array without a bound (C99; not ISO C++, but g++ and clang++ take
    it), and whether an array may have no element (neither standard; g++
    and clang++ take it). *)
Record dialect : Type := Dialect {
  tags_are_types : bool;
  flexible_arrays : bool;
  zero_length_arrays : bool
}.

Definition C99 : dialect := Dialect false true false.
Definition ISO_CXX : dialect := Dialect true false false.
Definition GNU_CXX : dialect := Dialect true true true.

(** Typedef names live with the ordinary identifiers, tags on their own. *)
Record tenv : Type := TEnv {
  typedefs : list (string * ctype);
  tags : list (string * list (string * ctype))
}.

Definition empty_tenv : tenv := TEnv [] [].

(** What [<stdint.h>] declares of use to the header.  The header does not
    include it: the file that includes the header has to, beforehand. *)
Definition stdint_h : tenv := TEnv [("int16_t", CInt Signed 16)] [].

Definition resolve (dl : dialect) (env : tenv) (t : tyname) : result ctype :=
  match t with
  | TUnsignedChar => OK (CInt Unsigned CHAR_BIT)
  | TName s =>
      match lookup s (typedefs env) with
      | Some ty => OK ty
      | None =>
          if tags_are_types dl then
            match lookup s (tags env) with
            | Some ms => OK (CStruct s ms)
            | None => Error (UnknownTypeName s)
            end
          else Error (UnknownTypeName s)
      end
  | TStruct tag =>
      match lookup tag (tags env) with
      | Some ms => OK (CStruct tag ms)
      | None => Error (UnknownTypeName tag)
      end
  end.

Definition is_flex (t : ctype) : bool :=
  match t with
  | CFlex _ => true
  | _ => false
  end.

(** A struct that ends in a flexible array member. *)
Definition has_flex (t : ctype) : bool :=
  match t with
  | CStruct _ ms => existsb (fun m => is_flex (snd m)) ms
  | _ => false
  end.

(** The size of an object of the type, in bytes, members laid one after
    the other as on the 8-bit boards, whose limit [MAX_OBJECT_SIZE] is; an
    array without bound takes no room in its struct. *)
Fixpoint sizeof (t : ctype) : Z :=
  match t with
  | CInt _ bits => bits / CHAR_BIT
  | CArray e n => n * sizeof e
  | CFlex _ => 0
  | CStruct _ ms =>
      (fix members_size (ms : list (string * ctype)) : Z :=
         match ms with
         | [] => 0
         | (_, t') :: ms' => sizeof t' + members_size ms'
         end) ms
  end.

Definition fits (t : ctype) : bool := sizeof t <=? MAX_OBJECT_SIZE.

(** An array bound is a positive number, or zero where the dialect has
    arrays of no element, and the array must not be larger than an object
    can be. *)
Definition bound_allowed (dl : dialect) (n : Z) : bool :=
  (0 <? n) || (zero_length_arrays dl && (n =? 0)).

Definition apply_declarator (dl : dialect) (name : string) (t : ctype)
  (d : declarator) : result ctype :=
  match d with
  | DPlain => OK t
  | DArray (SLit n) =>
      if bound_allowed dl n && negb (is_flex t) && negb (has_flex t)
      then if fits (CArray t n)
           then OK (CArray t n)
           else Error (ObjectTooLarge name)
      else Error (BadArraySize name)
  | DArray (SIdent _) => Error (BadArraySize name)
  | DFlex =>
      if negb (is_flex t) && negb (has_flex t)
      then OK (CFlex t)
      else Error (BadArraySize name)
  end.

Definition is_nil {A : Type} (l : list A) : bool :=
  match l with
  | [] => true
  | _ :: _ => false
  end.

(** Members are declared in order; [seen] holds the names of those before.
    An array without bound is accepted as the last member only, after at
    least one other, where the dialect has flexible array members. *)
Fixpoint elab_members (dl : dialect) (env : tenv) (seen : list string)
  (ms : list member) : result (list (string * ctype)) :=
  match ms with
  | [] => OK []
  | m :: ms' =>
      do t <- resolve dl env (m_type m);
      do t' <- apply_declarator dl (m_name m) t (m_decl m);
      if existsb (String.eqb (m_name m)) seen
      then Error (DuplicateMember (m_name m))
      else if has_flex t' then Error (FlexibleArrayMember (m_name m))
      else if is_flex t'
              && negb (flexible_arrays dl && is_nil ms' && negb (is_nil seen))
      then Error (FlexibleArrayMember (m_name m))
      else
        do rest <- elab_members dl env (m_name m :: seen) ms';
        OK ((m_name m, t') :: rest)
  end.

(** Where tags name types, a tag and a typedef name share their scope:
    the same name can be both only if the typedef names the struct of
    that tag ([typedef struct X X;]). *)
Definition names_tag (name : string) (t : ctype) : bool :=
  match t with
  | CStruct tag _ => String.eqb tag name
  | _ => false
  end.

Definition clashes_with_typedef (tag : string)
  (tds : list (string * ctype)) : bool :=
  match lookup tag tds with
  | Some t => negb (names_tag tag t)
  | None => false
  end.

(** A typedef may be repeated with the same type in C++, not in C99; a
    struct is defined once, and not larger than an object can be. *)
Definition elab_decl (dl : dialect) (env : tenv) (d : decl) : result tenv :=
  match d with
  | Typedef ty name dc =>
      do t <- resolve dl env ty;
      do t' <- apply_declarator dl name t dc;
      if tags_are_types dl && defined name (tags env)
         && negb (names_tag name t')
      then Error (Redefinition name)
      else
        match lookup name (typedefs env) with
        | None => OK (TEnv ((name, t') :: typedefs env) (tags env))
        | Some old =>
            if tags_are_types dl && ctype_eqb old t' then OK env
            else Error (Redefinition name)
        end
  | StructDef tag ms =>
      if defined tag (tags env) then Error (Redefinition tag)
      else if tags_are_types dl && clashes_with_typedef tag (typedefs env)
      then Error (Redefinition tag)
      else
        do ms' <- elab_members dl env [] ms;
        if fits (CStruct tag ms')
        then OK (TEnv (typedefs env) ((tag, ms') :: tags env))
        else Error (ObjectTooLarge tag)
  end.

Fixpoint elab_decls (dl : dialect) (env : tenv) (ds : list decl) : result tenv :=
  match ds with
  | [] => OK env
  | d :: ds' => do env' <- elab_decl dl env d; elab_decls dl env' ds'
  end.

(** Translation of a unit that includes [files] in turn, in an environment
    [env] that stands for what was declared before them. *)
Definition translate (mode : redefine_mode) (dl : dialect)
  (cmdline : macro_table) (env : tenv) (files : list (list pp_line))
  : result tenv :=
  do o <- preprocess mode cmdline files;
  elab_decls dl env (out_decls o).

Definition typedef_of (r : result tenv) (name : string) : option ctype :=
  match r with
  | OK env => lookup name (typedefs env)
  | Error _ => None
  end.

Definition struct_of (r : result tenv) (tag : string)
  : option (list (string * ctype)) :=
  match r with
  | OK env => lookup tag (tags env)
  | Error _ => None
  end.

(** A compiler reports a declaration it rejects and goes on with the next
    one; [check_decls] gives what is declared in the end and the
    diagnostics in order. *)
Fixpoint check_decls (dl : dialect) (env : tenv) (ds : list decl)
  : tenv * list error :=
  match ds with
  | [] => (env, [])
  | d :: ds' =>
      match elab_decl dl env d with
      | OK env' => check_decls dl env' ds'
      | Error e =>
          let (env', es) := check_decls dl env ds' in (env', e :: es)
      end
  end.

Definition diagnose (mode : redefine_mode) (dl : dialect)
  (cmdline : macro_table) (env : tenv) (files : list (list pp_line))
  : result (tenv * list error) :=
  do o <- preprocess mode cmdline files;
  OK (check_decls dl env (out_decls o)).

Definition member_type (r : result tenv) (tag name : string) : option ctype :=
  match struct_of r tag with
  | Some ms => lookup name ms
  | None => None
  end.

Definition array_bound (t : option ctype) : option Z :=
  match t with
  | Some (CArray _ n) => Some n
  | _ => None
  end.

(** The bounds of the two fixed buffers: [write] of the brief transaction
    and [expect] of the brief test. *)
Definition brief_capacities (r : result tenv) : option (Z * Z) :=
  match array_bound (member_type r "I2C_transaction_brief" "write"),
        array_bound (member_type r "I2C_test_brief" "expect") with
  | Some w, Some e => Some (w, e)
  | _, _ => None
  end.

(** The header on its own after [<stdint.h>], as the C++ compilers of the
    boards read it. *)
Definition header_types : result tenv :=
  translate Strict GNU_CXX [] stdint_h [I2Ctest_h].

(** The header with line 41 written [struct I2C_transaction_brief tx;]. *)
Definition I2Ctest_h_struct_keyword : list pp_line :=
  map (fun l =>
         match l with
         | PDecl (StructDef "I2C_test_brief" _) =>
             PDecl (StructDef "I2C_test_brief"
                      [ Member (TStruct "I2C_transaction_brief") "tx" DPlain;
                        Member (TName "I2C_data_brief") "expect" DPlain ])
         | _ => l
         end) I2Ctest_h.

(** The header without its lines 7, 8 and 45. *)
Definition I2Ctest_h_unguarded : list pp_line :=
  filter (fun l =>
            match l with
            | PDecl _ => true
            | PDefine name _ => String.eqb name "I2C_limit_brief"
            | _ => false
            end) I2Ctest_h.

(* ================================================================= *)
(** ** Values *)

Inductive value : Type :=
| VInt (z : Z)
| VArray (vs : list value)
| VStruct (vs : list value).

(** An array without bound holds as many elements as were allocated after
    the struct; the type says nothing of their number. *)
Fixpoint has_type (v : value) (t : ctype) {struct v} : bool :=
  match v, t with
  | VInt z, CInt sg bits => in_range sg bits z
  | VArray vs, CArray e n =>
      (Z.of_nat (List.length vs) =? n) && forallb (fun x => has_type x e) vs
  | VArray vs, CFlex e => forallb (fun x => has_type x e) vs
  | VStruct vs, CStruct _ ms =>
      (fix members_ok (vs : list value) (ms : list (string * ctype)) : bool :=
         match vs, ms with
         | [], [] => true
         | x :: vs', (_, t') :: ms' => has_type x t' && members_ok vs' ms'
         | _, _ => false
         end) vs ms
  | _, _ => false
  end.

(** The typedefs and the constant of the header. *)
Definition I2C_byte : Type := Z.
Definition I2C_length : Type := Z.
Definition I2C_limit_brief : Z := 16.
Definition I2C_data_brief : Type := list I2C_byte.

Definition byte_ok (b : I2C_byte) : bool := in_range Unsigned CHAR_BIT b.
Definition length_ok (n : I2C_length) : bool := in_range Signed 16 n.
Definition data_brief_ok (d : I2C_data_brief) : bool :=
  (Z.of_nat (List.length d) =? I2C_limit_brief) && forallb byte_ok d.

Definition bytes_value (d : list I2C_byte) : value := VArray (map VInt d).

(** [l] with its entry [i] set to [b]; an index out of the array is not
    written. *)
Fixpoint store_at (i : nat) (b : I2C_byte) (l : list I2C_byte) {struct l}
  : list I2C_byte :=
  match l, i with
  | [], _ => []
  | _ :: l', O => b :: l'
  | x :: l', S i' => x :: store_at i' b l'
  end.

(** Modelled from the spec: reading [n] entries from the front of a buffer
    of [cap] entries.  The header has no code that reads a buffer; the
    counts are "number of bytes to write to the device" and "number of
    bytes to read from the device" in the field comments, and the spec
    makes the first [n] entries the meaningful ones, for a count from 0 to
    the capacity. *)
Definition leading (n : I2C_length) (cap : Z) (buf : list I2C_byte)
  : option (list I2C_byte) :=
  if (0 <=? n) && (n <=? cap) then Some (firstn (Z.to_nat n) buf) else None.

Module Generic.

Record I2C_transaction_generic : Type := Build {
  addr : I2C_byte;
  n_write : I2C_length;
  n_read : I2C_length;
  write : list I2C_byte
}.

Definition valid (t : I2C_transaction_generic) : bool :=
  byte_ok (addr t) && length_ok (n_write t) && length_ok (n_read t)
  && forallb byte_ok (write t).

Definition to_value (t : I2C_transaction_generic) : value :=
  VStruct [VInt (addr t); VInt (n_write t); VInt (n_read t);
           bytes_value (write t)].


End Generic.

Module Brief.

Record I2C_transaction_brief : Type := Build {
  addr : I2C_byte;
  n_write : I2C_length;
  n_read : I2C_length;
  write : I2C_data_brief
}.

Definition valid (t : I2C_transaction_brief) : bool :=
  byte_ok (addr t) && length_ok (n_write t) && length_ok (n_read t)
  && data_brief_ok (write t).

Definition to_value (t : I2C_transaction_brief) : value :=
  VStruct [VInt (addr t); VInt (n_write t); VInt (n_read t);
           bytes_value (write t)].

Definition set_write (i : nat) (b : I2C_byte) (t : I2C_transaction_brief)
  : I2C_transaction_brief :=
  Build (addr t) (n_write t) (n_read t) (store_at i b (write t)).

(** Modelled from the spec: the payload of a brief transaction is the
    first [n_write] entries of its buffer. *)
Definition payload (t : I2C_transaction_brief) : option (list I2C_byte) :=
  leading (n_write t) I2C_limit_brief (write t).

End Brief.

Module Test.

Record I2C_test_brief : Type := Build {
  tx : Brief.I2C_transaction_brief;
  expect : I2C_data_brief
}.

Definition valid (t : I2C_test_brief) : bool :=
  Brief.valid (tx t) && data_brief_ok (expect t).

Definition to_value (t : I2C_test_brief) : value :=
  VStruct [Brief.to_value (tx t); bytes_value (expect t)].

Definition set_expect (i : nat) (b : I2C_byte) (t : I2C_test_brief)
  : I2C_test_brief :=
  Build (tx t) (store_at i b (expect t)).

(** Modelled from the spec: the bytes a verifier compares with what it
    read back are the first [n_read] entries of [expect]. *)
Definition expected (t : I2C_test_brief) : option (list I2C_byte) :=
  leading (Brief.n_read (tx t)) I2C_limit_brief (expect t).

End Test.

(** The example of the spec: write register pointer 0x01 to device 0x50,
    then read two bytes, expecting 0xAB then 0xCD.  The entries of the two
    buffers that the counts leave out are given as zero here. *)
Definition example_test : Test.I2C_test_brief :=
  Test.Build
    (Brief.Build 0x50 1 2 (0x01 :: repeat 0 15))
    (0xAB :: 0xCD :: repeat 0 14).

(** The type a struct tag stands for. *)
Definition struct_type (r : result tenv) (tag : string) : option ctype :=
  option_map (CStruct tag) (struct_of r tag).

(** The three leading members that the two transaction structs are to
    have in common. *)
Definition leading_members : list (string * ctype) :=
  [("addr", CInt Unsigned 8); ("n_write", CInt Signed 16);
   ("n_read", CInt Signed 16)].

(** What a C99 compiler is left with after reporting the one declaration
    it rejects. *)
Definition declared_in_C99 : result tenv :=
  do r <- diagnose Strict C99 [] stdint_h [I2Ctest_h]; OK (fst r).

(** The macro of the include guard, lines 7 and 8. *)
Definition guard : string := "__I2CTEST_I2CTEST_H".

(** The command line of a build that gives the limit: [-DI2C_limit_brief=n]. *)
Definition D_limit (n : Z) : macro_table := [("I2C_limit_brief", [TokInt n])].

(** The identifiers a line is written with, keywords among them: those
    are what macro replacement can reach.  The names of the directives
    are not; the name that [#ifndef] tests or [#define] defines is not
    replaced either, and is listed for what the line does with it. *)
Definition tyname_idents (t : tyname) : list string :=
  match t with
  | TUnsignedChar => tyname_keywords t
  | TName s => [s]
  | TStruct tag => (tyname_keywords t ++ [tag])%list
  end.

Definition declarator_idents (d : declarator) : list string :=
  match d with
  | DArray (SIdent s) => [s]
  | _ => []
  end.

Definition member_idents (m : member) : list string :=
  (tyname_idents (m_type m) ++ m_name m :: declarator_idents (m_decl m))%list.

Definition decl_idents (d : decl) : list string :=
  match d with
  | Typedef ty name dc =>
      "typedef" :: (tyname_idents ty ++ name :: declarator_idents dc)%list
  | StructDef tag ms => "struct" :: tag :: flat_map member_idents ms
  end.

Definition token_idents (t : pp_token) : list string :=
  match t with
  | TokInt _ => []
  | TokId s => [s]
  end.

Definition line_idents (l : pp_line) : list string :=
  match l with
  | PIfndef name => [name]
  | PDefine name body => name :: flat_map token_idents body
  | PEndif => []
  | PDecl d => decl_idents d
  end.

(** A command line that defines none of the identifiers of a file. *)
Definition untouched (cmdline : macro_table) (file : list pp_line) : bool :=
  forallb (fun s => negb (defined s cmdline)) (flat_map line_idents file).

(** The names a file declares: typedef names and struct tags. *)
Definition declared_name (l : pp_line) : list string :=
  match l with
  | PDecl (Typedef _ name _) => [name]
  | PDecl (StructDef tag _) => [tag]
  | _ => []
  end.

(** An environment in which none of the names a file declares is taken,
    as a typedef or as a tag. *)
Definition fresh (env : tenv) (file : list pp_line) : bool :=
  forallb (fun s => negb (defined s (typedefs env))
                    && negb (defined s (tags env)))
    (flat_map declared_name file).

(* ================================================================= *)
(** * Properties *)

(** ** Integer types *)

Lemma byte_ok_iff (z : Z) : byte_ok z = true <-> 0 <= z <= 255.
Proof.
  unfold byte_ok, in_range, min_value, max_value, CHAR_BIT.
  rewrite andb_true_iff, !Z.leb_le.
  change (2 ^ 8 - 1) with 255. lia.
Qed.

Lemma length_ok_iff (z : Z) : length_ok z = true <-> -32768 <= z <= 32767.
Proof.
  unfold length_ok, in_range, min_value, max_value.
  rewrite andb_true_iff, !Z.leb_le.
  change (- 2 ^ (16 - 1)) with (-32768). change (2 ^ (16 - 1) - 1) with 32767.
  lia.
Qed.

Lemma encode_mod (bits z : Z) : 0 <= bits -> encode bits z = z mod 2 ^ bits.
Proof. intros Hb. unfold encode. now rewrite Z.land_ones. Qed.

Lemma decode_unsigned (bits raw : Z) :
  0 <= bits -> decode Unsigned bits raw = raw mod 2 ^ bits.
Proof. intros Hb. unfold decode. now rewrite Z.land_ones. Qed.

Lemma convert_unsigned (bits z : Z) :
  0 <= bits -> convert Unsigned bits z = z mod 2 ^ bits.
Proof.
  intros Hb. unfold convert. rewrite decode_unsigned, encode_mod by assumption.
  apply Z.mod_mod. apply Z.pow_nonzero; lia.
Qed.

(** The top bit of a pattern of [bits] bits is set from [2 ^ (bits - 1)]
    on. *)
Lemma top_bit (bits r : Z) :
  0 < bits -> 0 <= r < 2 ^ bits ->
  Z.testbit r (bits - 1) = (2 ^ (bits - 1) <=? r).
Proof.
  intros Hb Hr.
  assert (Hp : 2 ^ bits = 2 * 2 ^ (bits - 1)).
  { replace bits with (Z.succ (bits - 1)) at 1 by lia.
    apply Z.pow_succ_r. lia. }
  assert (Hh : 0 < 2 ^ (bits - 1)) by (apply Z.pow_pos_nonneg; lia).
  destruct (Z.leb_spec (2 ^ (bits - 1)) r) as [Hle | Hlt].
  - apply Z.testbit_true; [lia |].
    assert (Hq : r / 2 ^ (bits - 1) = 1).
    { symmetry. apply Z.div_unique with (r := r - 2 ^ (bits - 1)); lia. }
    now rewrite Hq.
  - apply Z.testbit_false; [lia |].
    rewrite Z.div_small by lia. reflexivity.
Qed.

Lemma convert_in_range (sg : signedness) (bits z : Z) :
  0 < bits -> in_range sg bits z = true -> convert sg bits z = z.
Proof.
  intros Hb Hr.
  unfold in_range, min_value, max_value in Hr.
  apply andb_true_iff in Hr. destruct Hr as [Hlo Hhi].
  apply Z.leb_le in Hlo. apply Z.leb_le in Hhi.
  assert (Hp : 2 ^ bits = 2 * 2 ^ (bits - 1)).
  { replace bits with (Z.succ (bits - 1)) at 1 by lia.
    apply Z.pow_succ_r. lia. }
  assert (Hh : 0 < 2 ^ (bits - 1)) by (apply Z.pow_pos_nonneg; lia).
  destruct sg.
  - unfold convert, decode. rewrite encode_mod by lia.
    rewrite Z.land_ones by lia. rewrite Z.mod_mod by lia.
    assert (Hm : 0 <= z mod 2 ^ bits < 2 ^ bits) by (apply Z.mod_pos_bound; lia).
    rewrite top_bit by lia.
    destruct (Z.leb_spec (2 ^ (bits - 1)) (z mod 2 ^ bits)) as [Hle | Hlt].
    + assert (Hz : z < 0).
      { destruct (Z.lt_ge_cases z 0) as [|Hge]; [assumption |].
        rewrite Z.mod_small in Hle by lia. lia. }
      assert (Hs : z mod 2 ^ bits = z + 2 ^ bits).
      { symmetry. apply Z.mod_unique with (q := -1); lia. }
      lia.
    + assert (Hz : 0 <= z).
      { destruct (Z.lt_ge_cases z 0) as [Hneg|]; [| assumption].
        assert (Hs : z mod 2 ^ bits = z + 2 ^ bits).
        { symmetry. apply Z.mod_unique with (q := -1); lia. }
        lia. }
      apply Z.mod_small. lia.
  - rewrite convert_unsigned by lia. apply Z.mod_small. lia.
Qed.

(** Whatever the width of a char, at least 8 bits, 0 to 255 fit in it. *)
Lemma unsigned_char_holds_octets (bits z : Z) :
  8 <= bits -> 0 <= z <= 255 -> in_range Unsigned bits z = true.
Proof.
  intros Hb Hz. unfold in_range, min_value, max_value.
  apply andb_true_iff. rewrite !Z.leb_le.
  assert (H : 2 ^ 8 <= 2 ^ bits) by (apply Z.pow_le_mono_r; lia).
  change (2 ^ 8) with 256 in H. lia.
Qed.

(** ** Macro replacement *)

Lemma lookup_remove_key_same {A : Type} (k : string) (l : list (string * A)) :
  lookup k (remove_key k l) = None.
Proof.
  induction l as [| [k0 a] l IH]; simpl; [reflexivity |].
  destruct (String.eqb k k0) eqn:E; [assumption |].
  simpl. now rewrite E.
Qed.

Lemma lookup_remove_key_other {A : Type} (k k' : string)
  (l : list (string * A)) :
  String.eqb k k' = false -> lookup k (remove_key k' l) = lookup k l.
Proof.
  intros Hne. induction l as [| [k0 a] l IH]; simpl; [reflexivity |].
  destruct (String.eqb k' k0) eqn:E0.
  - apply String.eqb_eq in E0. subst k0. now rewrite Hne.
  - simpl. now rewrite IH.
Qed.

Lemma remove_key_length {A : Type} (k : string) (l : list (string * A)) :
  (List.length (remove_key k l) <= List.length l)%nat.
Proof.
  induction l as [| [k0 a] l IH]; simpl; [lia |].
  destruct (String.eqb k k0); simpl; lia.
Qed.

Lemma remove_key_shrinks {A : Type} (k : string) (a : A)
  (l : list (string * A)) :
  lookup k l = Some a ->
  (List.length (remove_key k l) < List.length l)%nat.
Proof.
  induction l as [| [k0 a0] l IH]; simpl; [discriminate |].
  destruct (String.eqb k k0).
  - intros _. pose proof (remove_key_length k l). lia.
  - intros H. simpl. apply IH in H. lia.
Qed.

(** The fuel given by [expand_token] is never what stops a replacement:
    where every replacement list is a single token, every token has an
    expansion. *)
Lemma replace_total (fuel : nat) :
  forall (tbl : macro_table) (t : pp_token),
    (List.length tbl <= fuel)%nat ->
    (forall k body, lookup k tbl = Some body -> exists t', body = [t']) ->
    exists t', replace fuel tbl t = OK t'.
Proof.
  induction fuel as [| fuel IH]; intros tbl t Hlen Hone.
  - destruct t as [n | s]; simpl; [now eexists |].
    destruct (lookup s tbl) as [body |] eqn:El; [| now eexists].
    apply remove_key_shrinks in El. lia.
  - destruct t as [n | s]; simpl; [now eexists |].
    destruct (lookup s tbl) as [body |] eqn:El; [| now eexists].
    destruct (Hone s body El) as (t' & ->).
    apply IH.
    + apply remove_key_shrinks in El. lia.
    + intros k body Hk.
      destruct (String.eqb k s) eqn:E.
      * apply String.eqb_eq in E. subst k.
        rewrite lookup_remove_key_same in Hk. discriminate.
      * rewrite lookup_remove_key_other in Hk by assumption.
        eapply Hone; eassumption.
Qed.

Lemma expand_token_total (tbl : macro_table) (t : pp_token) :
  (forall k body, lookup k tbl = Some body -> exists t', body = [t']) ->
  exists t', expand_token tbl t = OK t'.
Proof. intros H. apply replace_total; [lia | exact H]. Qed.

(** ** Records and the types of the header *)

Lemma bytes_have_type (d : list I2C_byte) :
  forallb (fun x => has_type x (CInt Unsigned 8)) (map VInt d)
  = forallb byte_ok d.
Proof.
  induction d as [| b d IH]; simpl; [reflexivity |].
  now rewrite IH.
Qed.

Lemma data_brief_has_type (d : I2C_data_brief) :
  has_type (bytes_value d) (CArray (CInt Unsigned 8) 16) = data_brief_ok d.
Proof.
  unfold bytes_value, data_brief_ok, I2C_limit_brief. simpl.
  now rewrite length_map, bytes_have_type.
Qed.

Lemma generic_has_type :
  exists ty,
    struct_type header_types "I2C_transaction_generic" = Some ty
    /\ forall t, has_type (Generic.to_value t) ty = Generic.valid t.
Proof.
  eexists. split; [vm_compute; reflexivity |].
  intros [a nw nr w]. unfold Generic.to_value, Generic.valid, bytes_value.
  simpl. rewrite bytes_have_type, andb_true_r, !andb_assoc. reflexivity.
Qed.

Lemma brief_has_type :
  exists ty,
    struct_type header_types "I2C_transaction_brief" = Some ty
    /\ forall t, has_type (Brief.to_value t) ty = Brief.valid t.
Proof.
  eexists. split; [vm_compute; reflexivity |].
  intros [a nw nr w]. unfold Brief.to_value, Brief.valid.
  cbn [has_type Brief.addr Brief.n_write Brief.n_read Brief.write].
  rewrite data_brief_has_type, andb_true_r, !andb_assoc. reflexivity.
Qed.

Lemma test_has_type :
  exists ty,
    struct_type header_types "I2C_test_brief" = Some ty
    /\ forall t, has_type (Test.to_value t) ty = Test.valid t.
Proof.
  destruct brief_has_type as (tb & Hb & Hv).
  vm_compute in Hb. injection Hb as <-.
  eexists. split; [vm_compute; reflexivity |].
  intros [x e]. unfold Test.to_value, Test.valid.
  cbn [has_type Test.tx Test.expect].
  rewrite data_brief_has_type, andb_true_r.
  f_equal. apply Hv.
Qed.

(** ** The header under the two languages *)

Lemma C99_diagnostics :
  (do r <- diagnose Strict C99 [] stdint_h [I2Ctest_h]; OK (snd r))
  = OK [UnknownTypeName "I2C_transaction_brief"].
Proof. vm_compute. reflexivity. Qed.

Lemma C99_declares_the_rest :
  (forall name, typedef_of declared_in_C99 name = typedef_of header_types name)
  /\ (forall tag, tag <> "I2C_test_brief" ->
        struct_of declared_in_C99 tag = struct_of header_types tag).
Proof.
  split.
  - intros name. vm_compute. reflexivity.
  - intros tag Hne.
    change (struct_of header_types tag)
      with (lookup tag (("I2C_test_brief",
              [("tx", CStruct "I2C_transaction_brief"
                        (leading_members
                           ++ [("write", CArray (CInt Unsigned 8) 16)])%list);
               ("expect", CArray (CInt Unsigned 8) 16)])
            :: match declared_in_C99 with
               | OK env => tags env
               | Error _ => []
               end)).
    cbn [lookup]. apply String.eqb_neq in Hne. rewrite Hne. reflexivity.
Qed.

(** With the keyword [struct] before the tag on line 41, C99 declares what
    C++ declares for the header as it is. *)
Lemma struct_keyword_repairs_C99 :
  translate Strict C99 [] stdint_h [I2Ctest_h_struct_keyword] = header_types
  /\ translate Strict GNU_CXX [] stdint_h [I2Ctest_h_struct_keyword]
     = header_types.
Proof. split; vm_compute; reflexivity. Qed.

(** C1: the generic and the brief transaction start with the same three
    members, in the same order and of the same types: [addr], an unsigned
    8-bit integer, then [n_write] and [n_read], signed 16-bit integers.
    Each has one more member, [write], and it is the only difference: an
    array without bound in the generic struct, an array of 16 bytes in the
    brief one.  C99 and C++ declare the same two structs. *)
Theorem transactions_share_leading_members :
  struct_of header_types "I2C_transaction_generic"
  = Some (leading_members ++ [("write", CFlex (CInt Unsigned 8))])%list
  /\ struct_of header_types "I2C_transaction_brief"
     = Some (leading_members ++ [("write", CArray (CInt Unsigned 8) 16)])%list
  /\ struct_of declared_in_C99 "I2C_transaction_generic"
     = struct_of header_types "I2C_transaction_generic"
  /\ struct_of declared_in_C99 "I2C_transaction_brief"
     = struct_of header_types "I2C_transaction_brief"
  /\ leading_members
     = [("addr", CInt Unsigned 8); ("n_write", CInt Signed 16);
        ("n_read", CInt Signed 16)].
Proof. repeat split; vm_compute; reflexivity. Qed.

(** C3: [I2C_byte] is an unsigned integer of 8 bits.  Its values are
    exactly 0 to 255; the eight bits read back as the number they spell,
    the top bit being no sign; and widening a byte to a length keeps its
    value. *)
Theorem I2C_byte_unsigned_octet :
  typedef_of header_types "I2C_byte" = Some (CInt Unsigned 8)
  /\ (forall z : Z, has_type (VInt z) (CInt Unsigned 8) = true <-> 0 <= z <= 255)
  /\ (forall raw : Z, 0 <= raw <= 255 -> decode Unsigned 8 raw = raw)
  /\ (forall z : Z, 0 <= z <= 255 -> convert Unsigned 8 z = z)
  /\ (forall z : Z, 0 <= z <= 255 -> convert Signed 16 z = z).
Proof.
  split; [vm_compute; reflexivity |].
  split; [intros z; apply byte_ok_iff |].
  split; [| split].
  - intros raw Hr. rewrite decode_unsigned by lia. apply Z.mod_small.
    change (2 ^ 8) with 256. lia.
  - intros z Hz. apply convert_in_range; [lia |]. now apply byte_ok_iff.
  - intros z Hz. apply convert_in_range; [lia |]. apply length_ok_iff. lia.
Qed.

Lemma I2C_byte_unsigned_octet_witness :
  0 <= 0xAB <= 255 /\ decode Unsigned 8 0xAB = 0xAB.
Proof.
  split; [lia |].
  apply (proj1 (proj2 (proj2 I2C_byte_unsigned_octet))). lia.
Defined.

(** The same eight bits read through a signed type would be negative. *)
Example signed_char_would_extend : decode Signed 8 0xAB = -85.
Proof. reflexivity. Qed.

(** C4: [I2C_length] is a signed integer of 16 bits.  Its values are
    exactly -32768 to 32767, each stored and read back unchanged; a
    transaction whose counts are negative is a value of its struct like
    any other. *)
Theorem I2C_length_signed_16 :
  typedef_of header_types "I2C_length" = Some (CInt Signed 16)
  /\ (forall z : Z,
        has_type (VInt z) (CInt Signed 16) = true <-> -32768 <= z <= 32767)
  /\ (forall z : Z, -32768 <= z <= 32767 -> convert Signed 16 z = z)
  /\ (forall (t : Brief.I2C_transaction_brief) (nw nr : Z),
        Brief.valid t = true ->
        -32768 <= nw <= 32767 -> -32768 <= nr <= 32767 ->
        Brief.valid (Brief.Build (Brief.addr t) nw nr (Brief.write t)) = true)
  /\ (forall (t : Generic.I2C_transaction_generic) (nw nr : Z),
        Generic.valid t = true ->
        -32768 <= nw <= 32767 -> -32768 <= nr <= 32767 ->
        Generic.valid (Generic.Build (Generic.addr t) nw nr (Generic.write t))
        = true).
Proof.
  split; [vm_compute; reflexivity |].
  split; [intros z; apply length_ok_iff |].
  split; [| split].
  - intros z Hz. apply convert_in_range; [lia |]. now apply length_ok_iff.
  - intros [a nw0 nr0 w] nw nr Hv Hnw Hnr. unfold Brief.valid in *.
    cbn [Brief.addr Brief.n_write Brief.n_read Brief.write] in *.
    apply length_ok_iff in Hnw, Hnr.
    rewrite !andb_true_iff in *. tauto.
  - intros [a nw0 nr0 w] nw nr Hv Hnw Hnr. unfold Generic.valid in *.
    cbn [Generic.addr Generic.n_write Generic.n_read Generic.write] in *.
    apply length_ok_iff in Hnw, Hnr.
    rewrite !andb_true_iff in *. tauto.
Qed.

Lemma I2C_length_signed_16_witness :
  Brief.valid (Test.tx example_test) = true
  /\ Brief.valid (Brief.Build 0x50 (-1) (-32768)
                    (Brief.write (Test.tx example_test))) = true.
Proof.
  split; [reflexivity |].
  apply (proj1 (proj2 (proj2 (proj2 I2C_length_signed_16)))
           (Test.tx example_test) (-1) (-32768)); [reflexivity | lia | lia].
Defined.

(** ** Values of the struct types, read back as records *)

Lemma has_type_int_inv (v : value) (sg : signedness) (bits : Z) :
  has_type v (CInt sg bits) = true ->
  exists z, v = VInt z /\ in_range sg bits z = true.
Proof.
  destruct v as [z | vs | vs]; simpl; try discriminate.
  intros H. now exists z.
Qed.

Lemma has_type_ints_inv (vs : list value) (sg : signedness) (bits : Z) :
  forallb (fun x => has_type x (CInt sg bits)) vs = true ->
  exists d, vs = map VInt d /\ forallb (in_range sg bits) d = true.
Proof.
  induction vs as [| v vs IH]; simpl; intros H.
  - now exists [].
  - apply andb_true_iff in H. destruct H as [Hv Hvs].
    apply has_type_int_inv in Hv. destruct Hv as (z & -> & Hz).
    destruct (IH Hvs) as (d & -> & Hd).
    exists (z :: d). simpl. now rewrite Hz, Hd.
Qed.

Lemma has_type_data_brief_inv (v : value) :
  has_type v (CArray (CInt Unsigned 8) 16) = true ->
  exists d, v = bytes_value d /\ data_brief_ok d = true.
Proof.
  destruct v as [z | vs | vs]; simpl; try discriminate.
  intros H. apply andb_true_iff in H. destruct H as [Hlen Hall].
  apply has_type_ints_inv in Hall. destruct Hall as (d & -> & Hd).
  exists d. split; [reflexivity |].
  unfold data_brief_ok, I2C_limit_brief.
  rewrite length_map in Hlen. apply Z.eqb_eq in Hlen.
  apply andb_true_iff. split; [now apply Z.eqb_eq | exact Hd].
Qed.

Lemma has_type_brief_inv (v : value) (ty : ctype) :
  struct_type header_types "I2C_transaction_brief" = Some ty ->
  has_type v ty = true ->
  exists t, v = Brief.to_value t /\ Brief.valid t = true.
Proof.
  intros Hty. vm_compute in Hty. injection Hty as <-.
  destruct v as [z | vs | vs]; simpl; try discriminate.
  destruct vs as [| a [| nw [| nr [| w [| x vs]]]]]; try discriminate;
    try (intros H; rewrite ?andb_false_r in H; discriminate).
  intros H. rewrite andb_true_r in H.
  apply andb_true_iff in H. destruct H as [Ha H].
  apply andb_true_iff in H. destruct H as [Hnw H].
  apply andb_true_iff in H. destruct H as [Hnr Hw].
  apply has_type_int_inv in Ha, Hnw, Hnr.
  destruct Ha as (za & -> & Ha). destruct Hnw as (zw & -> & Hnw).
  destruct Hnr as (zr & -> & Hnr).
  apply has_type_data_brief_inv in Hw. destruct Hw as (d & -> & Hd).
  exists (Brief.Build za zw zr d). split; [reflexivity |].
  unfold Brief.valid, byte_ok, length_ok.
  cbn [Brief.addr Brief.n_write Brief.n_read Brief.write].
  change CHAR_BIT with 8.
  now rewrite Ha, Hnw, Hnr, Hd.
Qed.

(** C7: struct [I2C_test_brief] has two members and no more: [tx], whose
    type is struct [I2C_transaction_brief] itself, and [expect], an array
    of 16 bytes.  A value of the struct is one valid brief transaction and
    one buffer of 16 bytes side by side, and every such pair is a value of
    it. *)
Theorem test_brief_is_transaction_and_expect :
  exists tb ty,
    struct_type header_types "I2C_transaction_brief" = Some tb
    /\ struct_type header_types "I2C_test_brief" = Some ty
    /\ ty = CStruct "I2C_test_brief"
              [("tx", tb); ("expect", CArray (CInt Unsigned 8) 16)]
    /\ (forall v : value,
          has_type v ty = true
          <-> exists (x : Brief.I2C_transaction_brief) (e : I2C_data_brief),
                v = Test.to_value (Test.Build x e)
                /\ Brief.valid x = true
                /\ Z.of_nat (List.length e) = 16
                /\ forallb byte_ok e = true).
Proof.
  destruct brief_has_type as (tb & Htb & Hvb).
  destruct test_has_type as (ty & Hty & Hvt).
  exists tb, ty. split; [assumption |]. split; [assumption |].
  assert (Hshape : ty = CStruct "I2C_test_brief"
                          [("tx", tb); ("expect", CArray (CInt Unsigned 8) 16)]).
  { vm_compute in Htb, Hty. injection Htb as <-. injection Hty as <-.
    reflexivity. }
  split; [assumption |].
  intros v. split.
  - rewrite Hshape.
    destruct v as [z | vs | vs]; simpl; try discriminate.
    destruct vs as [| vx [| ve [| y vs]]]; try discriminate;
      try (intros H; rewrite ?andb_false_r in H; discriminate).
    intros H. rewrite andb_true_r in H.
    apply andb_true_iff in H. destruct H as [Hx He].
    apply (has_type_brief_inv _ _ Htb) in Hx. destruct Hx as (x & -> & Hx).
    apply has_type_data_brief_inv in He. destruct He as (e & -> & He).
    exists x, e. split; [reflexivity |]. split; [assumption |].
    unfold data_brief_ok, I2C_limit_brief in He.
    apply andb_true_iff in He. destruct He as [Hlen Hall].
    apply Z.eqb_eq in Hlen. now split.
  - intros (x & e & -> & Hx & Hlen & Hall).
    rewrite Hvt. unfold Test.valid, data_brief_ok, I2C_limit_brief.
    cbn [Test.tx Test.expect].
    rewrite Hx, Hall. apply Z.eqb_eq in Hlen. now rewrite Hlen.
Qed.

Lemma test_brief_is_transaction_and_expect_witness :
  exists ty,
    struct_type header_types "I2C_test_brief" = Some ty
    /\ has_type (Test.to_value example_test) ty = true.
Proof.
  destruct test_brief_is_transaction_and_expect as (tb & ty & _ & Hty & _ & Hv).
  exists ty. split; [assumption |].
  apply Hv. exists (Test.tx example_test), (Test.expect example_test).
  repeat split; reflexivity.
Defined.

(** C9: read as C99, after [<stdint.h>], the header is rejected at the
    member [tx] of struct [I2C_test_brief]: [I2C_transaction_brief] is a
    struct tag, and a tag names a type in C++ only.  Read on its own, in
    either language, it is rejected at [int16_t], which it uses and does
    not declare.  The array without bound that ends struct
    [I2C_transaction_generic] is in C99 and not in ISO C++; the C++
    compilers that accept it accept the header after [<stdint.h>]. *)
Theorem header_rejected_as_C99 :
  forall mode : redefine_mode,
    translate mode C99 [] stdint_h [I2Ctest_h]
    = Error (UnknownTypeName "I2C_transaction_brief")
    /\ translate mode C99 [] empty_tenv [I2Ctest_h]
       = Error (UnknownTypeName "int16_t")
    /\ translate mode GNU_CXX [] empty_tenv [I2Ctest_h]
       = Error (UnknownTypeName "int16_t")
    /\ translate mode ISO_CXX [] stdint_h [I2Ctest_h]
       = Error (FlexibleArrayMember "write")
    /\ translate mode GNU_CXX [] stdint_h [I2Ctest_h] = header_types
    /\ exists env, header_types = OK env.
Proof.
  intros mode. destruct mode; repeat split; try (vm_compute; reflexivity);
    eexists; vm_compute; reflexivity.
Qed.

(** ** The include guard *)

(** A [#define] never takes a macro away. *)
Lemma define_keeps_defined (mode : redefine_mode) (name g : string)
  (body : list pp_token) (tbl tbl' : macro_table) :
  define mode name body tbl = OK tbl' ->
  defined g tbl = true -> defined g tbl' = true.
Proof.
  unfold define, defined. intros Hd Hg.
  destruct (lookup name tbl) as [old |] eqn:El.
  - destruct (tokens_eqb old body).
    + now injection Hd as <-.
    + destruct mode; [discriminate |]. injection Hd as <-. simpl.
      destruct (String.eqb g name) eqn:E; [reflexivity |].
      now rewrite lookup_remove_key_other.
  - injection Hd as <-. simpl.
    destruct (String.eqb g name); [reflexivity | assumption].
Qed.

Lemma pp_step_keeps_defined (mode : redefine_mode) (g : string)
  (st st' : pp_state) (l : pp_line) :
  pp_step mode st l = OK st' ->
  defined g (macros st) = true -> defined g (macros st') = true.
Proof.
  unfold pp_step. intros Hs Hg.
  destruct (cond_skip st) as [| k].
  - destruct l as [name | name body | | d].
    + destruct (defined name (macros st)); now injection Hs as <-.
    + destruct (define mode name body (macros st)) as [tbl |] eqn:Ed;
        [| discriminate].
      injection Hs as <-. simpl. eapply define_keeps_defined; eassumption.
    + destruct (cond_open st); [discriminate | now injection Hs as <-].
    + destruct (expand_decl (macros st) d); [| discriminate].
      now injection Hs as <-.
  - destruct l; now injection Hs as <-.
Qed.

Lemma pp_lines_keeps_defined (mode : redefine_mode) (g : string)
  (ls : list pp_line) :
  forall st st',
    pp_lines mode st ls = OK st' ->
    defined g (macros st) = true -> defined g (macros st') = true.
Proof.
  induction ls as [| l ls IH]; simpl; intros st st' Hr Hg.
  - now injection Hr as <-.
  - destruct (pp_step mode st l) as [st1 |] eqn:Es; [| discriminate].
    simpl in Hr. eapply IH; [eassumption |].
    eapply pp_step_keeps_defined; eassumption.
Qed.

(** Once the guard is a macro, the header passes nothing on and leaves
    the macros as they are. *)
Lemma include_guarded (mode : redefine_mode) (o : pp_out) :
  defined guard (out_macros o) = true -> include mode I2Ctest_h o = OK o.
Proof.
  destruct o as [m ds]. cbn [out_macros]. intros Hg.
  unfold include, I2Ctest_h, I2Ctest_h_with.
  cbn [out_macros out_decls pp_lines].
  unfold pp_step at 1. cbn [cond_skip macros cond_open emitted].
  fold guard. rewrite Hg. reflexivity.
Qed.

(** After the header was read, the guard is a macro. *)
Lemma include_defines_guard (mode : redefine_mode) (o o' : pp_out) :
  include mode I2Ctest_h o = OK o' -> defined guard (out_macros o') = true.
Proof.
  intros Hi.
  destruct (defined guard (out_macros o)) eqn:Hg.
  - rewrite include_guarded in Hi by assumption. now injection Hi as <-.
  - destruct o as [m ds]. cbn [out_macros] in Hg.
    unfold include, I2Ctest_h, I2Ctest_h_with in Hi.
    match type of Hi with
    | context [pp_lines _ _ (_ :: _ :: ?rest)] =>
        remember rest as body eqn:Ebody
    end.
    cbn [out_macros out_decls pp_lines] in Hi.
    unfold pp_step at 1 in Hi. cbn [cond_skip macros cond_open emitted] in Hi.
    fold guard in Hi. rewrite Hg in Hi. cbn [bind] in Hi.
    unfold pp_step at 1 in Hi. cbn [cond_skip macros cond_open emitted] in Hi.
    unfold define in Hi. unfold defined in Hg.
    destruct (lookup guard m) eqn:El; [discriminate |].
    cbn [bind] in Hi.
    match type of Hi with
    | bind ?r _ = _ => destruct r as [st |] eqn:Er; [| discriminate]
    end.
    cbn [bind] in Hi.
    assert (Hst : defined guard (macros st) = true).
    { eapply pp_lines_keeps_defined; [exact Er |].
      cbn [macros]. unfold defined. cbn [lookup].
      now rewrite String.eqb_refl. }
    destruct (cond_open st); [| discriminate].
    destruct (cond_skip st); [| discriminate].
    now injection Hi as <-.
Qed.

Lemma include_twice (mode : redefine_mode) (o : pp_out) :
  (do o' <- include mode I2Ctest_h o; include mode I2Ctest_h o')
  = include mode I2Ctest_h o.
Proof.
  destruct (include mode I2Ctest_h o) as [o' | e] eqn:Hi; [| reflexivity].
  cbn [bind]. apply include_guarded. eapply include_defines_guard; eassumption.
Qed.

Lemma include_repeated (mode : redefine_mode) (n : nat) (o : pp_out) :
  include_all mode (repeat I2Ctest_h (S n)) o = include mode I2Ctest_h o.
Proof.
  revert o. induction n as [| n IH]; intros o.
  - cbn [repeat include_all].
    destruct (include mode I2Ctest_h o); reflexivity.
  - change (repeat I2Ctest_h (S (S n)))
      with (I2Ctest_h :: repeat I2Ctest_h (S n)).
    cbn [include_all].
    destruct (include mode I2Ctest_h o) as [o' | e] eqn:Hi; [| reflexivity].
    cbn [bind]. rewrite IH. apply include_guarded.
    eapply include_defines_guard; eassumption.
Qed.

Lemma include_keeps_defined (mode : redefine_mode) (g : string)
  (file : list pp_line) (o o' : pp_out) :
  include mode file o = OK o' ->
  defined g (out_macros o) = true -> defined g (out_macros o') = true.
Proof.
  unfold include. intros Hi Hg.
  destruct (pp_lines mode (PPState (out_macros o) 0 0 (out_decls o)) file)
    as [st |] eqn:Er; [| discriminate].
  cbn [bind] in Hi.
  assert (Hst : defined g (macros st) = true).
  { eapply pp_lines_keeps_defined; [exact Er | exact Hg]. }
  destruct (cond_open st); [| discriminate].
  destruct (cond_skip st); [| discriminate].
  now injection Hi as <-.
Qed.

Lemma include_all_keeps_defined (mode : redefine_mode) (g : string)
  (files : list (list pp_line)) :
  forall o o',
    include_all mode files o = OK o' ->
    defined g (out_macros o) = true -> defined g (out_macros o') = true.
Proof.
  induction files as [| f files IH]; simpl; intros o o' Hi Hg.
  - now injection Hi as <-.
  - destruct (include mode f o) as [o1 |] eqn:E1; [| discriminate].
    cbn [bind] in Hi. eapply IH; [exact Hi |].
    eapply include_keeps_defined; eassumption.
Qed.

Lemma include_all_app (mode : redefine_mode) (fs gs : list (list pp_line)) :
  forall o,
    include_all mode (fs ++ gs) o
    = do o' <- include_all mode fs o; include_all mode gs o'.
Proof.
  induction fs as [| f fs IH]; intros o; simpl; [reflexivity |].
  destruct (include mode f o) as [o1 |]; [| reflexivity].
  cbn [bind]. apply IH.
Qed.

(** An inclusion of the header that comes after another one, whatever
    was included in between, passes nothing on. *)
Lemma later_include_is_void (mode : redefine_mode)
  (between : list (list pp_line)) (o : pp_out) :
  include_all mode (I2Ctest_h :: between ++ [I2Ctest_h]) o
  = include_all mode (I2Ctest_h :: between) o.
Proof.
  change (I2Ctest_h :: between ++ [I2Ctest_h])
    with ((I2Ctest_h :: between) ++ [I2Ctest_h])%list.
  rewrite include_all_app.
  destruct (include_all mode (I2Ctest_h :: between) o) as [o2 |] eqn:E;
    [| reflexivity].
  cbn [bind include_all].
  assert (Hg : defined guard (out_macros o2) = true).
  { cbn [include_all] in E.
    destruct (include mode I2Ctest_h o) as [o1 |] eqn:E1; [| discriminate].
    cbn [bind] in E.
    eapply include_all_keeps_defined; [exact E |].
    eapply include_defines_guard; exact E1. }
  now rewrite include_guarded.
Qed.

(** C10: a translation unit that includes the header any number of times,
    at least once, is preprocessed to the same declarations and the same
    macros as one that includes it once, and is translated to the same
    types, whatever the macros and the declarations before it; an error of
    the one inclusion is the error of the repeated ones.  An inclusion
    after the first adds nothing, whatever other files come in between. *)
Theorem include_guard_idempotent :
  forall (mode : redefine_mode) (dl : dialect) (cmdline : macro_table)
         (env : tenv) (n : nat) (between : list (list pp_line)),
    preprocess mode cmdline (repeat I2Ctest_h (S n))
    = preprocess mode cmdline [I2Ctest_h]
    /\ translate mode dl cmdline env (repeat I2Ctest_h (S n))
       = translate mode dl cmdline env [I2Ctest_h]
    /\ preprocess mode cmdline [I2Ctest_h; I2Ctest_h]
       = preprocess mode cmdline [I2Ctest_h]
    /\ preprocess mode cmdline (I2Ctest_h :: between ++ [I2Ctest_h])
       = preprocess mode cmdline (I2Ctest_h :: between)
    /\ translate mode dl cmdline env (I2Ctest_h :: between ++ [I2Ctest_h])
       = translate mode dl cmdline env (I2Ctest_h :: between).
Proof.
  intros mode dl cmdline env n between.
  assert (H : forall k, preprocess mode cmdline (repeat I2Ctest_h (S k))
                        = preprocess mode cmdline [I2Ctest_h]).
  { intros k. unfold preprocess.
    rewrite include_repeated.
    change [I2Ctest_h] with (repeat I2Ctest_h 1).
    now rewrite include_repeated. }
  assert (Hb : preprocess mode cmdline (I2Ctest_h :: between ++ [I2Ctest_h])
               = preprocess mode cmdline (I2Ctest_h :: between)).
  { unfold preprocess. apply later_include_is_void. }
  split; [apply H |]. split; [unfold translate; now rewrite H |].
  split; [apply (H 1%nat) |]. split; [exact Hb |].
  unfold translate. now rewrite Hb.
Qed.

(** Without the guard a second inclusion declares everything again, which
    is not allowed for a struct; with it, nothing is. *)
Example unguarded_twice_rejected :
  translate Lenient GNU_CXX [] stdint_h
    [I2Ctest_h_unguarded; I2Ctest_h_unguarded]
  = Error (Redefinition "I2C_transaction_generic")
  /\ translate Lenient GNU_CXX [] stdint_h [I2Ctest_h_unguarded]
     = header_types
  /\ translate Lenient GNU_CXX [] stdint_h [I2Ctest_h; I2Ctest_h]
     = header_types.
Proof. repeat split; vm_compute; reflexivity. Qed.

(** ** The capacity of the brief buffers *)

(** A limit of 32 given on the command line is not taken over.  Line 18
    defines the macro anew, to 16: a compiler that holds to the rule on
    redefinition rejects the unit, one that lets it through gives both
    buffers 16 entries. *)
Lemma build_time_limit_not_taken :
  translate Strict GNU_CXX (D_limit 32) stdint_h [I2Ctest_h]
  = Error (MacroRedefined "I2C_limit_brief")
  /\ brief_capacities
       (translate Strict GNU_CXX (D_limit 32) stdint_h [I2Ctest_h])
     <> Some (32, 32)
  /\ brief_capacities
       (translate Lenient GNU_CXX (D_limit 32) stdint_h [I2Ctest_h])
     = Some (16, 16)
  /\ brief_capacities
       (translate Lenient GNU_CXX (D_limit 32) stdint_h [I2Ctest_h])
     <> Some (32, 32).
Proof.
  repeat split; try (vm_compute; reflexivity); vm_compute; discriminate.
Qed.

Ltac size_ok :=
  unfold fits, MAX_OBJECT_SIZE; apply Z.leb_le;
  cbn -[Z.add Z.mul Z.div]; unfold CHAR_BIT;
  change (8 / 8) with 1; change (16 / 8) with 2; lia.

Ltac sizes :=
  repeat match goal with
         | |- context [fits ?t] =>
             let H := fresh "Hfit" in
             assert (H : fits t = true) by size_ok;
             rewrite H; clear H
         end.

(** With a positive number [N] on line 18, small enough for the largest
    struct, the brief test with its two buffers, to be an object, the
    header is accepted and sizes everything by [N]. *)
Lemma translate_with_limit (mode : redefine_mode) (N : Z) :
  0 < N -> 2 * N + 5 <= MAX_OBJECT_SIZE ->
  translate mode GNU_CXX [] stdint_h [I2Ctest_h_with [TokInt N]]
  = OK (TEnv
          [("I2C_data_brief", CArray (CInt Unsigned 8) N);
           ("I2C_length", CInt Signed 16); ("I2C_byte", CInt Unsigned 8);
           ("int16_t", CInt Signed 16)]
          [("I2C_test_brief",
            [("tx", CStruct "I2C_transaction_brief"
                      (leading_members
                         ++ [("write", CArray (CInt Unsigned 8) N)])%list);
             ("expect", CArray (CInt Unsigned 8) N)]);
           ("I2C_transaction_brief",
            (leading_members ++ [("write", CArray (CInt Unsigned 8) N)])%list);
           ("I2C_transaction_generic",
            (leading_members ++ [("write", CFlex (CInt Unsigned 8))])%list)]).
Proof.
  intros HN Hmax. unfold MAX_OBJECT_SIZE in Hmax.
  unfold translate.
  assert (Hp : preprocess mode [] [I2Ctest_h_with [TokInt N]]
               = OK (PPOut [("I2C_limit_brief", [TokInt N]);
                            (guard, [TokInt 1])]
                       (match preprocess Strict []
                                [I2Ctest_h_with [TokInt N]] with
                        | OK o => out_decls o
                        | Error _ => []
                        end))).
  { destruct mode; vm_compute; reflexivity. }
  rewrite Hp. cbn [bind out_decls].
  assert (B1 : bound_allowed GNU_CXX N = true).
  { unfold bound_allowed. apply orb_true_iff. left. apply Z.ltb_lt. lia. }
  repeat (progress (cbn -[fits bound_allowed]; rewrite ?B1; sizes)).
  reflexivity.
Qed.

(** C2, as the header has it: the capacity is one named constant,
    [I2C_limit_brief], which line 18 defines as 16, and no buffer is sized
    by anything else: with another positive number [N] on that line, such
    that the structs are still objects the target can hold, the buffer
    typedef, [write] of the brief transaction and [expect] of the brief
    test all have [N] entries.  The definition is unconditional, so a
    limit other than 16 given at build time never sizes the buffers: the
    unit is rejected for the redefinition, or, where the compiler lets it
    through, translated as without it, both buffers with 16 entries. *)
Theorem limit_is_the_constant_of_line_18 :
  forall (mode : redefine_mode) (N : Z),
    (0 < N -> 2 * N + 5 <= MAX_OBJECT_SIZE ->
     brief_capacities
       (translate mode GNU_CXX [] stdint_h [I2Ctest_h_with [TokInt N]])
     = Some (N, N)
     /\ array_bound
          (typedef_of
             (translate mode GNU_CXX [] stdint_h [I2Ctest_h_with [TokInt N]])
             "I2C_data_brief")
        = Some N)
    /\ I2Ctest_h = I2Ctest_h_with [TokInt 16]
    /\ brief_capacities header_types = Some (16, 16)
    /\ (N <> 16 ->
        translate Strict GNU_CXX (D_limit N) stdint_h [I2Ctest_h]
        = Error (MacroRedefined "I2C_limit_brief")
        /\ translate Lenient GNU_CXX (D_limit N) stdint_h [I2Ctest_h]
           = header_types
        /\ brief_capacities
             (translate Lenient GNU_CXX (D_limit N) stdint_h [I2Ctest_h])
           = Some (16, 16)).
Proof.
  intros mode N.
  split.
  { intros HN Hmax. rewrite (translate_with_limit mode N HN Hmax).
    split; reflexivity. }
  split; [reflexivity |].
  split; [vm_compute; reflexivity |].
  intros Hne.
  assert (E : (N =? 16) = false) by (apply Z.eqb_neq; assumption).
  assert (HL : translate Lenient GNU_CXX (D_limit N) stdint_h [I2Ctest_h]
               = header_types).
  { cbv -[Z.eqb]. rewrite E. cbv. reflexivity. }
  split; [| split].
  - cbv -[Z.eqb]. rewrite E. reflexivity.
  - exact HL.
  - rewrite HL. vm_compute. reflexivity.
Qed.

Lemma limit_is_the_constant_of_line_18_witness :
  0 < 32
  /\ brief_capacities
       (translate Strict GNU_CXX [] stdint_h [I2Ctest_h_with [TokInt 32]])
     = Some (32, 32).
Proof.
  split; [lia |].
  apply (proj1 (limit_is_the_constant_of_line_18 Strict 32));
    [lia | unfold MAX_OBJECT_SIZE; lia].
Defined.

(** ** Counts and buffers *)

Lemma store_at_length (i : nat) (b : I2C_byte) (l : list I2C_byte) :
  List.length (store_at i b l) = List.length l.
Proof.
  revert i. induction l as [| x l IH]; intros [| i]; simpl; auto.
Qed.

Lemma store_at_bytes (i : nat) (b : I2C_byte) (l : list I2C_byte) :
  byte_ok b = true -> forallb byte_ok l = true ->
  forallb byte_ok (store_at i b l) = true.
Proof.
  intros Hb. revert i. induction l as [| x l IH]; intros [| i]; simpl; auto.
  - intros H. apply andb_true_iff in H. now rewrite Hb.
  - intros H. apply andb_true_iff in H. destruct H as [Hx Hl].
    now rewrite Hx, IH.
Qed.

Lemma store_at_data_brief (i : nat) (b : I2C_byte) (d : I2C_data_brief) :
  byte_ok b = true -> data_brief_ok d = true ->
  data_brief_ok (store_at i b d) = true.
Proof.
  unfold data_brief_ok. intros Hb H.
  apply andb_true_iff in H. destruct H as [Hlen Hall].
  now rewrite store_at_length, Hlen, store_at_bytes.
Qed.

Lemma firstn_store_at (n i : nat) (b : I2C_byte) (l : list I2C_byte) :
  (n <= i)%nat -> firstn n (store_at i b l) = firstn n l.
Proof.
  revert n i. induction l as [| x l IH]; intros n i Hle.
  - reflexivity.
  - destruct i as [| i].
    + now replace n with 0%nat by lia.
    + destruct n as [| n]; [reflexivity |].
      simpl. rewrite IH by lia. reflexivity.
Qed.

Lemma nth_store_at (i : nat) (b d : I2C_byte) (l : list I2C_byte) :
  (i < List.length l)%nat -> nth i (store_at i b l) d = b.
Proof.
  revert i. induction l as [| x l IH]; intros i Hi; simpl in Hi.
  - lia.
  - destruct i as [| i]; simpl; [reflexivity |]. apply IH. lia.
Qed.

Lemma leading_store_at (n cap : Z) (i : nat) (b : I2C_byte)
  (buf : list I2C_byte) :
  (Z.to_nat n <= i)%nat ->
  leading n cap (store_at i b buf) = leading n cap buf.
Proof.
  intros Hle. unfold leading.
  destruct ((0 <=? n) && (n <=? cap)); [| reflexivity].
  now rewrite firstn_store_at.
Qed.

Lemma leading_prefix (n cap : Z) (buf : list I2C_byte) :
  0 <= n <= cap -> Z.of_nat (List.length buf) = cap ->
  leading n cap buf = Some (firstn (Z.to_nat n) buf)
  /\ Z.of_nat (List.length (firstn (Z.to_nat n) buf)) = n.
Proof.
  intros Hn Hcap. unfold leading.
  assert (E : (0 <=? n) && (n <=? cap) = true).
  { apply andb_true_iff. rewrite !Z.leb_le. lia. }
  rewrite E. split; [reflexivity |].
  rewrite firstn_length_le by lia. lia.
Qed.

Lemma leading_changes (n cap : Z) (i : nat) (b : I2C_byte)
  (buf : list I2C_byte) :
  0 <= n <= cap -> Z.of_nat (List.length buf) = cap ->
  (i < Z.to_nat n)%nat -> nth i buf 0 <> b ->
  leading n cap (store_at i b buf) <> leading n cap buf.
Proof.
  intros Hn Hcap Hi Hb.
  destruct (leading_prefix n cap buf Hn Hcap) as [-> _].
  destruct (leading_prefix n cap (store_at i b buf) Hn) as [-> _].
  { now rewrite store_at_length. }
  intros H. injection H as H. apply Hb.
  assert (Hnth : nth i (firstn (Z.to_nat n) (store_at i b buf)) 0
                 = nth i (firstn (Z.to_nat n) buf) 0) by now rewrite H.
  rewrite !nth_firstn in Hnth.
  apply Nat.ltb_lt in Hi. rewrite Hi in Hnth.
  rewrite nth_store_at in Hnth by (apply Nat.ltb_lt in Hi; lia).
  now symmetry.
Qed.

Lemma data_brief_length (d : I2C_data_brief) :
  data_brief_ok d = true -> Z.of_nat (List.length d) = I2C_limit_brief.
Proof.
  unfold data_brief_ok. intros H. apply andb_true_iff in H.
  now apply Z.eqb_eq.
Qed.

Lemma brief_valid_write (t : Brief.I2C_transaction_brief) :
  Brief.valid t = true -> data_brief_ok (Brief.write t) = true.
Proof.
  unfold Brief.valid. intros H. now apply andb_true_iff in H.
Qed.



(** C6: a brief transaction is a value of its struct as soon as each
    member is one of its own type; the type asks nothing of [n_write]
    against the capacity.  Any count up to 32767 can stand in a brief
    transaction, above 16 as well: the value is accepted like any other,
    and only the payload, which would run past the buffer, is not
    defined. *)
Theorem brief_write_count_is_not_checked :
  exists ty,
    struct_type header_types "I2C_transaction_brief" = Some ty
    /\ (forall t : Brief.I2C_transaction_brief,
          has_type (Brief.to_value t) ty
          = byte_ok (Brief.addr t) && length_ok (Brief.n_write t)
            && length_ok (Brief.n_read t) && data_brief_ok (Brief.write t))
    /\ (forall (t : Brief.I2C_transaction_brief) (nw : I2C_length),
          has_type (Brief.to_value t) ty = true ->
          I2C_limit_brief < nw <= 32767 ->
          has_type
            (Brief.to_value
               (Brief.Build (Brief.addr t) nw (Brief.n_read t) (Brief.write t)))
            ty = true
          /\ Brief.payload
               (Brief.Build (Brief.addr t) nw (Brief.n_read t) (Brief.write t))
             = None).
Proof.
  destruct brief_has_type as (ty & Hty & Hv).
  exists ty. split; [assumption |]. split.
  - intros t. now rewrite Hv.
  - intros [a nw0 nr w] nw Ht Hnw. rewrite Hv in *.
    unfold Brief.valid in *.
    cbn [Brief.addr Brief.n_write Brief.n_read Brief.write] in *.
    rewrite !andb_true_iff in Ht. destruct Ht as [[[Ha _] Hnr] Hw].
    unfold I2C_limit_brief in Hnw.
    assert (Hl : length_ok nw = true) by (apply length_ok_iff; lia).
    rewrite Ha, Hl, Hnr, Hw. split; [reflexivity |].
    unfold Brief.payload, leading, I2C_limit_brief. cbn [Brief.n_write].
    assert (E : (nw <=? 16) = false) by (apply Z.leb_gt; lia).
    now rewrite E, andb_false_r.
Qed.

Lemma brief_write_count_is_not_checked_witness :
  exists ty,
    struct_type header_types "I2C_transaction_brief" = Some ty
    /\ has_type (Brief.to_value (Test.tx example_test)) ty = true
    /\ has_type
         (Brief.to_value
            (Brief.Build 0x50 17 2 (Brief.write (Test.tx example_test))))
         ty = true.
Proof.
  destruct brief_write_count_is_not_checked as (ty & Hty & Hf & Hn).
  exists ty. split; [assumption |].
  assert (Ht : has_type (Brief.to_value (Test.tx example_test)) ty = true).
  { rewrite Hf. reflexivity. }
  split; [assumption |].
  apply (Hn (Test.tx example_test) 17 Ht). unfold I2C_limit_brief. lia.
Defined.

(** C8: in a brief transaction whose [n_write] is [k], from 0 to 16, the
    payload is the first [k] entries of [write], and in a brief test whose
    [n_read] is [j], from 0 to 16, the bytes to compare are the first [j]
    entries of [expect].  An entry from index [k] (or [j]) on may hold any
    byte: the value stays one of the struct and the payload (or the bytes
    to compare) stays what it was.  An entry before that index is part of
    it: another byte there gives another payload. *)
Theorem brief_buffers_count_their_prefix :
  forall (t : Brief.I2C_transaction_brief) (u : Test.I2C_test_brief)
         (k j : Z),
    Brief.valid t = true -> Test.valid u = true ->
    Brief.n_write t = k -> 0 <= k <= 16 ->
    Brief.n_read (Test.tx u) = j -> 0 <= j <= 16 ->
    (Brief.payload t = Some (firstn (Z.to_nat k) (Brief.write t))
     /\ Z.of_nat (List.length (firstn (Z.to_nat k) (Brief.write t))) = k)
    /\ (Test.expected u = Some (firstn (Z.to_nat j) (Test.expect u))
        /\ Z.of_nat (List.length (firstn (Z.to_nat j) (Test.expect u))) = j)
    /\ (forall (i : nat) (b : I2C_byte),
          (Z.to_nat k <= i)%nat -> byte_ok b = true ->
          Brief.valid (Brief.set_write i b t) = true
          /\ Brief.payload (Brief.set_write i b t) = Brief.payload t)
    /\ (forall (i : nat) (b : I2C_byte),
          (Z.to_nat j <= i)%nat -> byte_ok b = true ->
          Test.valid (Test.set_expect i b u) = true
          /\ Test.expected (Test.set_expect i b u) = Test.expected u)
    /\ (forall (i : nat) (b : I2C_byte),
          (i < Z.to_nat k)%nat -> nth i (Brief.write t) 0 <> b ->
          Brief.payload (Brief.set_write i b t) <> Brief.payload t)
    /\ (forall (i : nat) (b : I2C_byte),
          (i < Z.to_nat j)%nat -> nth i (Test.expect u) 0 <> b ->
          Test.expected (Test.set_expect i b u) <> Test.expected u).
Proof.
  intros [a nw nr w] [[a' nw' nr' w'] e] k j Ht Hu Hk Hk16 Hj Hj16.
  cbn [Brief.n_write Brief.n_read Test.tx] in Hk, Hj. subst nw nr'.
  assert (Hw : data_brief_ok w = true) by (now apply brief_valid_write in Ht).
  unfold Test.valid in Hu. cbn [Test.tx Test.expect] in Hu.
  apply andb_true_iff in Hu. destruct Hu as [Hx He].
  pose proof (data_brief_length w Hw) as Lw.
  pose proof (data_brief_length e He) as Le.
  unfold Brief.payload, Test.expected, Brief.set_write, Test.set_expect.
  cbn [Brief.addr Brief.n_write Brief.n_read Brief.write Test.tx Test.expect].
  unfold I2C_limit_brief in *.
  split; [now apply leading_prefix |].
  split; [now apply leading_prefix |].
  split; [| split; [| split]].
  - intros i b Hi Hb. split; [| now apply leading_store_at].
    unfold Brief.valid in *.
    cbn [Brief.addr Brief.n_write Brief.n_read Brief.write] in *.
    rewrite !andb_true_iff in *.
    destruct Ht as [[[Ha Hnw] Hnr] _].
    repeat split; try assumption. now apply store_at_data_brief.
  - intros i b Hi Hb. split; [| now apply leading_store_at].
    unfold Test.valid. cbn [Test.tx Test.expect].
    now rewrite Hx, store_at_data_brief.
  - intros i b Hi Hb. now apply leading_changes.
  - intros i b Hi Hb. now apply leading_changes.
Qed.

Lemma brief_buffers_count_their_prefix_witness :
  Brief.payload (Test.tx example_test) = Some [0x01]
  /\ Test.expected example_test = Some [0xAB; 0xCD].
Proof.
  destruct (brief_buffers_count_their_prefix
              (Test.tx example_test) example_test 1 2)
    as ((Hp & _) & (He & _) & _); try reflexivity; try lia.
  split; [exact Hp | exact He].
Defined.

(* ================================================================= *)
(** * Further properties of the header *)

(** ** The values of the buffer typedef and of the generic struct *)

Lemma bytes_ok_iff (d : list I2C_byte) :
  forallb byte_ok d = true <-> forall b, In b d -> 0 <= b <= 255.
Proof.
  rewrite forallb_forall. split; intros H b Hb; apply byte_ok_iff; auto.
Qed.

(** X2: [I2C_data_brief] is an array of [I2C_limit_brief] bytes, 16 of
    them: its values are the arrays of exactly 16 entries, each from 0 to
    255.  An array of bytes of any other length is not a value of it, and
    so cannot stand as [write] of a brief transaction or [expect] of a
    brief test. *)
Theorem data_brief_is_sixteen_bytes :
  exists ty,
    typedef_of header_types "I2C_data_brief" = Some ty
    /\ (forall v : value,
          has_type v ty = true
          <-> exists d : list I2C_byte,
                v = bytes_value d
                /\ List.length d = 16%nat
                /\ forall b, In b d -> 0 <= b <= 255)
    /\ (forall d : list I2C_byte,
          List.length d <> 16%nat -> has_type (bytes_value d) ty = false)
    /\ (forall (t : Brief.I2C_transaction_brief),
          List.length (Brief.write t) <> 16%nat -> Brief.valid t = false).
Proof.
  eexists. split; [vm_compute; reflexivity |].
  split; [| split].
  - intros v. split.
    + intros H. apply has_type_data_brief_inv in H.
      destruct H as (d & -> & Hd). exists d. split; [reflexivity |].
      unfold data_brief_ok, I2C_limit_brief in Hd.
      apply andb_true_iff in Hd. destruct Hd as [Hlen Hall].
      apply Z.eqb_eq in Hlen. split; [lia | now apply bytes_ok_iff].
    + intros (d & -> & Hlen & Hall).
      rewrite data_brief_has_type. unfold data_brief_ok, I2C_limit_brief.
      apply andb_true_iff. split; [apply Z.eqb_eq; lia | now apply bytes_ok_iff].
  - intros d Hlen. rewrite data_brief_has_type.
    unfold data_brief_ok, I2C_limit_brief.
    assert (E : (Z.of_nat (List.length d) =? 16) = false)
      by (apply Z.eqb_neq; lia).
    now rewrite E.
  - intros [a nw nr w] Hlen. cbn [Brief.write] in Hlen.
    unfold Brief.valid, data_brief_ok, I2C_limit_brief. cbn [Brief.write].
    assert (E : (Z.of_nat (List.length w) =? 16) = false)
      by (apply Z.eqb_neq; lia).
    now rewrite E, andb_false_r.
Qed.

Lemma data_brief_is_sixteen_bytes_witness :
  exists ty,
    typedef_of header_types "I2C_data_brief" = Some ty
    /\ has_type (bytes_value (Test.expect example_test)) ty = true
    /\ has_type (bytes_value [0xAB; 0xCD]) ty = false.
Proof.
  destruct data_brief_is_sixteen_bytes as (ty & Hty & Hv & Hn & _).
  exists ty. split; [assumption |]. split.
  - apply Hv. exists (Test.expect example_test).
    split; [reflexivity |]. split; [reflexivity |].
    apply bytes_ok_iff. reflexivity.
  - apply Hn. simpl. lia.
Defined.

(** X3: a value of struct [I2C_transaction_generic] is an address from 0
    to 255, two counts from -32768 to 32767 and, after them, bytes in any
    number, none included: the array without bound sets no length and the
    struct asks nothing else of its members. *)
Theorem generic_takes_any_number_of_bytes :
  exists ty,
    struct_type header_types "I2C_transaction_generic" = Some ty
    /\ forall v : value,
         has_type v ty = true
         <-> exists (a : I2C_byte) (nw nr : I2C_length) (w : list I2C_byte),
               v = Generic.to_value (Generic.Build a nw nr w)
               /\ 0 <= a <= 255
               /\ -32768 <= nw <= 32767
               /\ -32768 <= nr <= 32767
               /\ forall b, In b w -> 0 <= b <= 255.
Proof.
  destruct generic_has_type as (ty & Hty & Hv).
  exists ty. split; [assumption |].
  intros v. split.
  - vm_compute in Hty. injection Hty as <-.
    destruct v as [z | vs | vs]; simpl; try discriminate.
    destruct vs as [| a [| nw [| nr [| w [| x vs]]]]]; try discriminate;
      try (intros H; rewrite ?andb_false_r in H; discriminate).
    intros H. rewrite andb_true_r in H.
    apply andb_true_iff in H. destruct H as [Ha H].
    apply andb_true_iff in H. destruct H as [Hnw H].
    apply andb_true_iff in H. destruct H as [Hnr Hw].
    apply has_type_int_inv in Ha, Hnw, Hnr.
    destruct Ha as (za & -> & Ha). destruct Hnw as (zw & -> & Hnw).
    destruct Hnr as (zr & -> & Hnr).
    destruct w as [z | ws | ws]; simpl in Hw; try discriminate.
    apply has_type_ints_inv in Hw. destruct Hw as (d & -> & Hd).
    exists za, zw, zr, d. split; [reflexivity |].
    split; [now apply byte_ok_iff |].
    split; [now apply length_ok_iff |].
    split; [now apply length_ok_iff |].
    now apply bytes_ok_iff.
  - intros (a & nw & nr & w & -> & Ha & Hnw & Hnr & Hw).
    rewrite Hv. unfold Generic.valid.
    cbn [Generic.addr Generic.n_write Generic.n_read Generic.write].
    apply byte_ok_iff in Ha. apply length_ok_iff in Hnw, Hnr.
    apply bytes_ok_iff in Hw. now rewrite Ha, Hnw, Hnr, Hw.
Qed.

Lemma generic_takes_any_number_of_bytes_witness :
  exists ty,
    struct_type header_types "I2C_transaction_generic" = Some ty
    /\ has_type (Generic.to_value (Generic.Build 0x50 3 0 [])) ty = true
    /\ has_type (Generic.to_value (Generic.Build 0x50 3 0 (repeat 0xFF 40)))
         ty = true.
Proof.
  destruct generic_takes_any_number_of_bytes as (ty & Hty & Hv).
  exists ty. split; [assumption |]. split.
  - apply Hv. exists 0x50, 3, 0, [].
    split; [reflexivity |]. split; [lia |]. split; [lia |]. split; [lia |].
    apply bytes_ok_iff. reflexivity.
  - apply Hv. exists 0x50, 3, 0, (repeat 0xFF 40).
    split; [reflexivity |]. split; [lia |]. split; [lia |]. split; [lia |].
    apply bytes_ok_iff. reflexivity.
Defined.

(** ** The macros of the header *)

(** X4: where the guard is a macro already, on the command line or from
    a file that took the same name, the header is void: it passes no
    declaration on and leaves the macros as they are, so that none of its
    types is declared and the unit is translated as if the header were not
    there. *)
Theorem predefined_guard_empties_header :
  forall (mode : redefine_mode) (dl : dialect) (cmdline : macro_table)
         (env : tenv),
    defined guard cmdline = true ->
    preprocess mode cmdline [I2Ctest_h] = OK (PPOut cmdline [])
    /\ translate mode dl cmdline env [I2Ctest_h] = OK env
    /\ forall name,
         typedef_of (translate mode dl cmdline env [I2Ctest_h]) name
         = lookup name (typedefs env).
Proof.
  intros mode dl cmdline env Hg.
  assert (Hp : preprocess mode cmdline [I2Ctest_h] = OK (PPOut cmdline [])).
  { unfold preprocess. cbn [include_all].
    rewrite include_guarded by exact Hg. reflexivity. }
  assert (Ht : translate mode dl cmdline env [I2Ctest_h] = OK env).
  { unfold translate. rewrite Hp. reflexivity. }
  split; [exact Hp |]. split; [exact Ht |].
  intros name. rewrite Ht. reflexivity.
Qed.

Lemma predefined_guard_empties_header_witness :
  typedef_of
    (translate Strict GNU_CXX [(guard, [TokInt 1])] stdint_h [I2Ctest_h])
    "I2C_byte"
  = None.
Proof.
  rewrite (proj2 (proj2 (predefined_guard_empties_header
                           Strict GNU_CXX [(guard, [TokInt 1])] stdint_h
                           eq_refl))).
  reflexivity.
Defined.

Lemma pp_token_eqb_eq (a b : pp_token) : pp_token_eqb a b = true -> a = b.
Proof.
  destruct a as [n | s], b as [m | t]; simpl; try discriminate; intros H.
  - apply Z.eqb_eq in H. now subst.
  - apply String.eqb_eq in H. now subst.
Qed.

Lemma tokens_eqb_eq (a b : list pp_token) : tokens_eqb a b = true -> a = b.
Proof.
  revert b. induction a as [| x a IH]; intros [| y b]; simpl;
    try discriminate; [reflexivity |].
  intros H. apply andb_true_iff in H. destruct H as [Hx Ha].
  apply pp_token_eqb_eq in Hx. apply IH in Ha. now subst.
Qed.

(** After a [#define] that went through, the name stands for the
    replacement list given, and every other macro for what it stood
    for. *)
Lemma define_result (mode : redefine_mode) (name : string)
  (body : list pp_token) (tbl tbl' : macro_table) :
  define mode name body tbl = OK tbl' ->
  lookup name tbl' = Some body
  /\ forall k, String.eqb k name = false -> lookup k tbl' = lookup k tbl.
Proof.
  unfold define. intros Hd.
  destruct (lookup name tbl) as [old |] eqn:El.
  - destruct (tokens_eqb old body) eqn:Et.
    + injection Hd as <-. apply tokens_eqb_eq in Et. subst old.
      split; [assumption | reflexivity].
    + destruct mode; [discriminate |]. injection Hd as <-. simpl.
      rewrite String.eqb_refl. split; [reflexivity |].
      intros k Hk. rewrite Hk. now apply lookup_remove_key_other.
  - injection Hd as <-. simpl. rewrite String.eqb_refl.
    split; [reflexivity |]. intros k Hk. now rewrite Hk.
Qed.

Lemma pp_step_frame (mode : redefine_mode) (st st' : pp_state) (l : pp_line)
  (k : string) :
  pp_step mode st l = OK st' ->
  (forall name body, l = PDefine name body -> String.eqb k name = false) ->
  lookup k (macros st') = lookup k (macros st).
Proof.
  unfold pp_step. intros Hs Hk.
  destruct (cond_skip st) as [| n].
  - destruct l as [name | name body | | d].
    + destruct (defined name (macros st)); now injection Hs as <-.
    + destruct (define mode name body (macros st)) as [tbl |] eqn:Ed;
        [| discriminate].
      injection Hs as <-. cbn [macros].
      apply (define_result _ _ _ _ _ Ed). now apply (Hk name body).
    + destruct (cond_open st); [discriminate | now injection Hs as <-].
    + destruct (expand_decl (macros st) d); [| discriminate].
      now injection Hs as <-.
  - destruct l; now injection Hs as <-.
Qed.

Lemma pp_lines_frame (mode : redefine_mode) (k : string) (ls : list pp_line) :
  forall st st',
    pp_lines mode st ls = OK st' ->
    (forall name body, In (PDefine name body) ls -> String.eqb k name = false) ->
    lookup k (macros st') = lookup k (macros st).
Proof.
  induction ls as [| l ls IH]; simpl; intros st st' Hr Hk.
  - now injection Hr as <-.
  - destruct (pp_step mode st l) as [st1 |] eqn:Es; [| discriminate].
    cbn [bind] in Hr.
    rewrite (IH st1 st' Hr) by (intros name body Hin; eapply Hk; eauto).
    eapply pp_step_frame; [exact Es |].
    intros name body ->. eapply Hk. left. reflexivity.
Qed.

Lemma pp_lines_cons_inv (mode : redefine_mode) (st st' : pp_state)
  (l : pp_line) (ls : list pp_line) :
  pp_lines mode st (l :: ls) = OK st' ->
  exists st1, pp_step mode st l = OK st1 /\ pp_lines mode st1 ls = OK st'.
Proof.
  simpl. destruct (pp_step mode st l) as [st1 |]; [| discriminate].
  intros H. now exists st1.
Qed.

(** A declaration line changes neither the macros nor the conditionals. *)
Lemma pp_step_decl_inv (mode : redefine_mode) (st st' : pp_state) (d : decl) :
  pp_step mode st (PDecl d) = OK st' ->
  macros st' = macros st /\ cond_skip st' = cond_skip st
  /\ cond_open st' = cond_open st.
Proof.
  unfold pp_step. destruct (cond_skip st) as [| n] eqn:Ek.
  - destruct (expand_decl (macros st) d); [| discriminate].
    intros H. injection H as <-. cbn. repeat split; reflexivity.
  - intros H. injection H as <-. repeat split; try reflexivity. exact Ek.
Qed.

(** X5: when the header is read with the guard not yet defined, and goes
    through, it leaves two macros behind, [__I2CTEST_I2CTEST_H] standing
    for [1] and [I2C_limit_brief] standing for [16], whatever the limit
    stood for before, and every other macro stands for what it stood
    for. *)
Theorem header_leaves_its_two_macros :
  forall (mode : redefine_mode) (o o' : pp_out),
    include mode I2Ctest_h o = OK o' ->
    defined guard (out_macros o) = false ->
    lookup guard (out_macros o') = Some [TokInt 1]
    /\ lookup "I2C_limit_brief" (out_macros o') = Some [TokInt 16]
    /\ forall k,
         k <> guard -> k <> "I2C_limit_brief" ->
         lookup k (out_macros o') = lookup k (out_macros o).
Proof.
  intros mode [m ds] o' Hi Hg. cbn [out_macros] in *.
  unfold include, I2Ctest_h, I2Ctest_h_with in Hi.
  cbn [out_macros out_decls] in Hi.
  match type of Hi with
  | bind ?r _ = _ => destruct r as [st |] eqn:Er; [| discriminate]
  end.
  cbn [bind] in Hi.
  assert (Ho : out_macros o' = macros st).
  { destruct (cond_open st); [| discriminate].
    destruct (cond_skip st); [| discriminate].
    now injection Hi as <-. }
  rewrite Ho. clear Hi Ho.
  (* line 7 *)
  apply pp_lines_cons_inv in Er. destruct Er as (s1 & E1 & Er).
  unfold pp_step in E1. cbn [cond_skip macros cond_open emitted] in E1.
  fold guard in E1. rewrite Hg in E1. injection E1 as <-.
  (* line 8 *)
  apply pp_lines_cons_inv in Er. destruct Er as (s2 & E2 & Er).
  unfold pp_step in E2. cbn [cond_skip macros cond_open emitted] in E2.
  fold guard in E2.
  destruct (define mode guard [TokInt 1] m) as [t1 |] eqn:D1; [| discriminate].
  cbn [bind] in E2. injection E2 as <-.
  destruct (define_result _ _ _ _ _ D1) as [G1 F1].
  (* lines 11 and 13 *)
  apply pp_lines_cons_inv in Er. destruct Er as (s3 & E3 & Er).
  apply pp_step_decl_inv in E3. cbn [macros cond_skip cond_open] in E3.
  destruct E3 as (M3 & K3 & _).
  apply pp_lines_cons_inv in Er. destruct Er as (s4 & E4 & Er).
  apply pp_step_decl_inv in E4. destruct E4 as (M4 & K4 & _).
  rewrite M3 in M4. rewrite K3 in K4.
  (* line 18 *)
  apply pp_lines_cons_inv in Er. destruct Er as (s5 & E5 & Er).
  unfold pp_step in E5. rewrite K4, M4 in E5.
  destruct (define mode "I2C_limit_brief" [TokInt 16] t1) as [t2 |] eqn:D2;
    [| discriminate].
  cbn [bind] in E5. injection E5 as <-.
  destruct (define_result _ _ _ _ _ D2) as [G2 F2].
  (* lines 21 to 45 *)
  assert (Hrest : forall k, lookup k (macros st) = lookup k t2).
  { intros k. rewrite (pp_lines_frame mode k _ _ _ Er); [reflexivity |].
    intros name body Hin. cbn in Hin.
    repeat (destruct Hin as [Hin | Hin]; [discriminate |]). contradiction. }
  split; [| split].
  - rewrite Hrest, F2 by reflexivity. exact G1.
  - rewrite Hrest. exact G2.
  - intros k Hk1 Hk2. apply String.eqb_neq in Hk1, Hk2.
    now rewrite Hrest, F2, F1.
Qed.

Lemma header_leaves_its_two_macros_witness :
  exists o',
    include Lenient I2Ctest_h
      (PPOut [("I2C_limit_brief", [TokInt 32]); ("DEBUG", [TokInt 1])] [])
    = OK o'
    /\ lookup "I2C_limit_brief" (out_macros o') = Some [TokInt 16]
    /\ lookup "DEBUG" (out_macros o') = Some [TokInt 1].
Proof.
  eexists. split; [vm_compute; reflexivity |].
  split.
  - refine (proj1 (proj2 (header_leaves_its_two_macros Lenient
              (PPOut [("I2C_limit_brief", [TokInt 32]);
                      ("DEBUG", [TokInt 1])] []) _ _ _)));
      [vm_compute; reflexivity | reflexivity].
  - rewrite (proj2 (proj2 (header_leaves_its_two_macros Lenient
               (PPOut [("I2C_limit_brief", [TokInt 32]);
                       ("DEBUG", [TokInt 1])] []) _
               ltac:(vm_compute; reflexivity) eq_refl)) "DEBUG");
      [reflexivity | discriminate | discriminate].
Defined.

(** ** Macros that the header does not name *)

Lemma replace_unbound (fuel : nat) (tbl : macro_table) (s : string) :
  lookup s tbl = None -> replace fuel tbl (TokId s) = OK (TokId s).
Proof. intros H. destruct fuel; simpl; now rewrite H. Qed.

Lemma expand_ident_unbound (tbl : macro_table) (s : string) :
  lookup s tbl = None -> expand_ident tbl s = OK s.
Proof.
  intros H. unfold expand_ident, expand_token.
  now rewrite replace_unbound.
Qed.

Lemma keywords_kept_unbound (tbl : macro_table) (kws : list string) :
  (forall k, In k kws -> lookup k tbl = None) ->
  keywords_kept tbl kws = OK tt.
Proof.
  intros H. unfold keywords_kept.
  assert (E : find (fun k => defined k tbl) kws = None).
  { induction kws as [| k kws IH]; simpl; [reflexivity |].
    unfold defined at 1. rewrite (H k) by now left.
    apply IH. intros k' Hk'. apply H. now right. }
  now rewrite E.
Qed.

Lemma expand_tyname_unbound (tbl : macro_table) (t : tyname) :
  (forall s, In s (tyname_idents t) -> lookup s tbl = None) ->
  expand_tyname tbl t = OK t.
Proof.
  intros H. unfold expand_tyname.
  rewrite keywords_kept_unbound
    by (intros k Hk; apply H; destruct t; simpl in *; tauto).
  cbn [bind].
  destruct t as [| s | tag]; [reflexivity | |];
    rewrite expand_ident_unbound by (apply H; simpl; tauto); reflexivity.
Qed.

Lemma expand_declarator_unbound (tbl : macro_table) (d : declarator) :
  (forall s, In s (declarator_idents d) -> lookup s tbl = None) ->
  expand_declarator tbl d = OK d.
Proof.
  intros H. destruct d as [| [n | s] |]; simpl; try reflexivity.
  unfold expand_token. rewrite replace_unbound by (apply H; simpl; auto).
  reflexivity.
Qed.

Lemma expand_member_unbound (tbl : macro_table) (m : member) :
  (forall s, In s (member_idents m) -> lookup s tbl = None) ->
  expand_member tbl m = OK m.
Proof.
  intros H. destruct m as [t n d]. unfold expand_member, member_idents in *.
  cbn [m_type m_name m_decl] in *.
  rewrite expand_tyname_unbound
    by (intros s Hs; apply H; apply in_or_app; now left).
  cbn [bind].
  rewrite expand_ident_unbound
    by (apply H; apply in_or_app; right; now left).
  cbn [bind].
  rewrite expand_declarator_unbound
    by (intros s Hs; apply H; apply in_or_app; right; now right).
  reflexivity.
Qed.

Lemma expand_members_unbound (tbl : macro_table) (ms : list member) :
  (forall s, In s (flat_map member_idents ms) -> lookup s tbl = None) ->
  mapM (expand_member tbl) ms = OK ms.
Proof.
  induction ms as [| m ms IH]; simpl; intros H; [reflexivity |].
  rewrite expand_member_unbound
    by (intros s Hs; apply H; apply in_or_app; now left).
  cbn [bind].
  rewrite IH by (intros s Hs; apply H; apply in_or_app; now right).
  reflexivity.
Qed.

(** A declaration that names no macro is passed on as it is written. *)
Lemma expand_decl_unbound (tbl : macro_table) (d : decl) :
  (forall s, In s (decl_idents d) -> lookup s tbl = None) ->
  expand_decl tbl d = OK d.
Proof.
  intros H. destruct d as [ty name dc | tag ms];
    unfold expand_decl; cbn [decl_idents] in H.
  - rewrite keywords_kept_unbound
      by (intros k [<- | []]; apply H; now left).
    cbn [bind].
    rewrite expand_tyname_unbound
      by (intros s Hs; apply H; right; apply in_or_app; now left).
    cbn [bind].
    rewrite expand_ident_unbound
      by (apply H; right; apply in_or_app; right; now left).
    cbn [bind].
    rewrite expand_declarator_unbound
      by (intros s Hs; apply H; right; apply in_or_app; right; now right).
    reflexivity.
  - rewrite keywords_kept_unbound
      by (intros k [<- | []]; apply H; now left).
    cbn [bind].
    rewrite expand_ident_unbound by (apply H; right; now left).
    cbn [bind].
    rewrite expand_members_unbound
      by (intros s Hs; apply H; right; now right).
    reflexivity.
Qed.

Lemma expand_size_literal (tbl : macro_table) (s : string) (n : Z) :
  lookup s tbl = Some [TokInt n] -> expand_size tbl (SIdent s) = OK (SLit n).
Proof.
  intros H. unfold expand_size, expand_token.
  destruct tbl as [| p tbl]; [discriminate |].
  cbn [List.length replace]. rewrite H.
  destruct (List.length tbl); reflexivity.
Qed.

Lemma untouched_lookup (cmdline : macro_table) (file : list pp_line) :
  untouched cmdline file = true ->
  forall s, In s (flat_map line_idents file) -> lookup s cmdline = None.
Proof.
  unfold untouched. rewrite forallb_forall. intros H s Hs.
  apply H in Hs. unfold defined in Hs.
  destruct (lookup s cmdline); [discriminate | reflexivity].
Qed.

Ltac in_list := cbn; repeat (first [left; reflexivity | right]).

Ltac unbound Hall :=
  let s := fresh "s" in
  let Hs := fresh "Hs" in
  intros s Hs; cbn in Hs;
  repeat (destruct Hs as [<- | Hs];
          [unfold guard; simpl; apply Hall; in_list |]);
  contradiction.

(** With a command line that defines none of its identifiers, the header
    is preprocessed to the declarations it gives on its own, its two
    macros coming on top of those of the command line. *)
Lemma preprocess_untouched (mode : redefine_mode) (cmdline : macro_table) :
  untouched cmdline I2Ctest_h = true ->
  exists o0,
    preprocess mode [] [I2Ctest_h] = OK o0
    /\ preprocess mode cmdline [I2Ctest_h]
       = OK (PPOut (out_macros o0 ++ cmdline)%list (out_decls o0)).
Proof.
  intros Hu. pose proof (untouched_lookup _ _ Hu) as Hall.
  eexists. split; [destruct mode; vm_compute; reflexivity |].
  cbn [out_macros out_decls app].
  unfold preprocess, include_all, include, I2Ctest_h, I2Ctest_h_with.
  cbn [out_macros out_decls pp_lines].
  (* line 7 *)
  unfold pp_step at 1. cbn [cond_skip macros cond_open emitted].
  unfold defined.
  rewrite (Hall "__I2CTEST_I2CTEST_H") by in_list. cbn [bind].
  (* line 8 *)
  unfold pp_step at 1. cbn [cond_skip macros cond_open emitted].
  unfold define at 1.
  rewrite (Hall "__I2CTEST_I2CTEST_H") by in_list. cbn [bind].
  (* lines 11 and 13 *)
  unfold pp_step at 1. cbn [cond_skip macros cond_open emitted].
  rewrite expand_decl_unbound by unbound Hall. cbn [bind app].
  unfold pp_step at 1. cbn [cond_skip macros cond_open emitted].
  rewrite expand_decl_unbound by unbound Hall. cbn [bind app].
  (* line 18 *)
  unfold pp_step at 1. cbn [cond_skip macros cond_open emitted].
  unfold define at 1.
  assert (Hlim : lookup "I2C_limit_brief"
                   (("__I2CTEST_I2CTEST_H", [TokInt 1]) :: cmdline) = None)
    by (simpl; apply Hall; in_list).
  rewrite Hlim. cbn [bind].
  (* line 21 *)
  unfold pp_step at 1. cbn [cond_skip macros cond_open emitted].
  unfold expand_decl at 1.
  rewrite keywords_kept_unbound by unbound Hall. cbn [bind].
  rewrite expand_tyname_unbound by unbound Hall. cbn [bind].
  rewrite expand_ident_unbound by (simpl; apply Hall; in_list). cbn [bind].
  unfold expand_declarator.
  rewrite (expand_size_literal _ _ 16)
    by (simpl; reflexivity).
  cbn [bind app].
  (* lines 24 to 43 *)
  unfold pp_step at 1. cbn [cond_skip macros cond_open emitted].
  rewrite expand_decl_unbound by unbound Hall. cbn [bind app].
  unfold pp_step at 1. cbn [cond_skip macros cond_open emitted].
  rewrite expand_decl_unbound by unbound Hall. cbn [bind app].
  unfold pp_step at 1. cbn [cond_skip macros cond_open emitted].
  rewrite expand_decl_unbound by unbound Hall. cbn [bind app].
  (* line 45 *)
  unfold pp_step at 1. cbn [cond_skip macros cond_open emitted bind].
  reflexivity.
Qed.

(** X6: macros that name none of the identifiers of the header do not
    reach it: with such a command line the header is preprocessed to the
    same declarations as with none, its two macros are added to those
    given, and the unit is translated to the same types, or rejected with
    the same error, in every language and environment. *)
Theorem unrelated_macros_leave_the_header_alone :
  forall (mode : redefine_mode) (cmdline : macro_table),
    untouched cmdline I2Ctest_h = true ->
    (exists o0,
       preprocess mode [] [I2Ctest_h] = OK o0
       /\ preprocess mode cmdline [I2Ctest_h]
          = OK (PPOut (out_macros o0 ++ cmdline)%list (out_decls o0)))
    /\ forall (dl : dialect) (env : tenv),
         translate mode dl cmdline env [I2Ctest_h]
         = translate mode dl [] env [I2Ctest_h].
Proof.
  intros mode cmdline Hu.
  destruct (preprocess_untouched mode cmdline Hu) as (o0 & H0 & H1).
  split; [now exists o0 |].
  intros dl env. unfold translate. rewrite H0, H1. reflexivity.
Qed.

Lemma unrelated_macros_leave_the_header_alone_witness :
  translate Strict GNU_CXX
    [("DEBUG", [TokInt 1]); ("F_CPU", [TokInt 16000000])] stdint_h [I2Ctest_h]
  = translate Strict GNU_CXX [] stdint_h [I2Ctest_h].
Proof.
  apply (proj2 (unrelated_macros_leave_the_header_alone Strict
                  [("DEBUG", [TokInt 1]); ("F_CPU", [TokInt 16000000])]
                  eq_refl)).
Defined.

(** ** The header and what is declared before it *)






